(** * The beanstalkd client of the rawx service (rawx/beanstalk.go)

    A shallow embedding of the client: the wire commands it builds, the
    reliable write loop, the response reader, the payload reader and the
    error classifier, over an explicit model of one TCP connection. *)

From Stdlib Require Import ZArith List String Ascii Bool Lia.
Import ListNotations.
Open Scope Z_scope.

(** ** Bytes and strings

    A Go [string] and a Go [[]byte] are both sequences of bytes; the
    conversions [[]byte(s)] and [string(b)] are the identity on them. *)

Definition bytes := list ascii.

Definition B (s : string) : bytes := list_ascii_of_string s.

Definition code (c : ascii) : Z := Z.of_N (N_of_ascii c).
Definition chr (z : Z) : ascii := ascii_of_N (Z.to_N z).

Definition CR : ascii := chr 13.
Definition LF : ascii := chr 10.
Definition CRLF : bytes := [CR; LF].

(** [len(x)] of a slice or string, as a Go [int]. *)
Definition len (b : bytes) : Z := Z.of_nat (List.length b).

Fixpoint beqb (x y : bytes) : bool :=
  match x, y with
  | [], [] => true
  | a :: x', b :: y' => Ascii.eqb a b && beqb x' y'
  | _, _ => false
  end.

(** [strings.HasPrefix(s, prefix)]. *)
Fixpoint HasPrefix (s prefix : bytes) : bool :=
  match prefix, s with
  | [], _ => true
  | p :: prefix', c :: s' => Ascii.eqb c p && HasPrefix s' prefix'
  | _ :: _, [] => false
  end.

(** ** Machine integers: [uint64] and the 64-bit [int] *)

Definition max_uint64 : Z := 2 ^ 64 - 1.
Definition max_int : Z := 2 ^ 63 - 1.
Definition min_int : Z := - 2 ^ 63.

Definition wrap_uint64 (z : Z) : Z := z mod 2 ^ 64.
Definition wrap_int (z : Z) : Z := (z + 2 ^ 63) mod 2 ^ 64 - 2 ^ 63.

(** ** Errors

    The sentinel errors of the client (each [errors.New] value is one
    constructor), the error built by [fmt.Errorf], and the errors of the
    Go libraries the client passes on unchanged. *)

Inductive numErr := ErrSyntax | ErrRange.

Inductive error :=
| errOutOfMemory
| errInternalError
| errBadFormat
| errUnknownCommand
| errBuried
| errExpectedCrlf
| errJobTooBig
| errDraining
| errDeadlineSoon
| errTimedOut
| errNotFound
| errNoConnection                       (* errors.New("No connection to beanstalkd") *)
| Errorf (msg : bytes)                  (* fmt.Errorf: the formatted message *)
| ScanError (msg : string)              (* errors raised by fmt's scanner *)
| NumError (fn : string) (num : bytes) (e : numErr)   (* *strconv.NumError *)
| EOF                                   (* io.EOF *)
| ErrUnexpectedEOF                      (* io.ErrUnexpectedEOF *)
| NetError (temporary : bool) (msg : string)          (* a net.Error *)
| ErrClosed.                            (* use of closed network connection *)

(** [err.Error()]. *)
Definition Error (e : error) : bytes :=
  match e with
  | errOutOfMemory => B "out of memory"
  | errInternalError => B "internal error"
  | errBadFormat => B "bad format"
  | errUnknownCommand => B "unknown command"
  | errBuried => B "buried"
  | errExpectedCrlf => B "expected CRLF"
  | errJobTooBig => B "job too big"
  | errDraining => B "draining"
  | errDeadlineSoon => B "deadline soon"
  | errTimedOut => B "timed out"
  | errNotFound => B "not found"
  | errNoConnection => B "No connection to beanstalkd"
  | Errorf msg => msg
  | ScanError msg => B msg
  | NumError fn num ErrSyntax => B fn ++ B ": parsing " ++ num ++ B ": invalid syntax"
  | NumError fn num ErrRange => B fn ++ B ": parsing " ++ num ++ B ": value out of range"
  | EOF => B "EOF"
  | ErrUnexpectedEOF => B "unexpected EOF"
  | NetError _ msg => B msg
  | ErrClosed => B "use of closed network connection"
  end.

(** The test of [sendAll]: [nerr, ok := err.(net.Error); !ok || !nerr.Temporary()]
    is false exactly for a [net.Error] whose [Temporary()] is true. *)
Definition isTemporary (e : error) : bool :=
  match e with
  | NetError t _ => t
  | _ => false
  end.

(** ** strconv *)

Module strconv.

(** The decimal digits of a non-negative number, most significant first. *)
Fixpoint digits (fuel : nat) (n : Z) (acc : bytes) : bytes :=
  match fuel with
  | O => acc
  | S fuel' =>
      let acc' := chr (48 + n mod 10) :: acc in
      if n / 10 =? 0 then acc' else digits fuel' (n / 10) acc'
  end.

Definition decimal (n : Z) : bytes :=
  digits (S (Z.to_nat (Z.log2 n))) n [].

(** [strconv.FormatUint(i, 10)]. *)
Definition FormatUint (i : Z) : bytes := decimal i.

(** [strconv.Itoa(i)]. *)
Definition Itoa (i : Z) : bytes :=
  if i <? 0 then "-"%char :: decimal (- i) else decimal i.

(** The loop of [strconv.ParseUint(s, 10, 64)] over the bytes of [s]:
    [n] is the value so far. *)
Fixpoint parseUintLoop (s : bytes) (n : Z) : Z * option numErr :=
  match s with
  | [] => (n, None)
  | c :: s' =>
      if (48 <=? code c) && (code c <=? 57) then
        let d := code c - 48 in
        if n >=? max_uint64 / 10 + 1 then (max_uint64, Some ErrRange)
        else
          let n10 := wrap_uint64 (n * 10) in
          let n1 := wrap_uint64 (n10 + d) in
          if (n1 <? n10) || (n1 >? max_uint64) then (max_uint64, Some ErrRange)
          else parseUintLoop s' n1
      else (0, Some ErrSyntax)
  end.

(** [strconv.ParseUint(s, 10, 64)]: the value and the kind of failure. *)
Definition ParseUint (s : bytes) : Z * option numErr :=
  match s with
  | [] => (0, Some ErrSyntax)
  | _ => parseUintLoop s 0
  end.

(** [strconv.ParseInt(s, 10, 64)]. *)
Definition ParseInt (s : bytes) : Z * option numErr :=
  match s with
  | [] => (0, Some ErrSyntax)
  | c :: s' =>
      let neg := Ascii.eqb c "-" in
      let s1 := if Ascii.eqb c "+" || neg then s' else s in
      match ParseUint s1 with
      | (_, Some ErrSyntax) => (0, Some ErrSyntax)
      | (un, _) =>
          let cutoff := 2 ^ 63 in
          if negb neg && (un >=? cutoff) then (cutoff - 1, Some ErrRange)
          else if neg && (un >? cutoff) then (- cutoff, Some ErrRange)
          else
            let n := wrap_int un in
            (if neg then wrap_int (- n) else n, None)
      end
  end.

End strconv.

(** ** unicode/utf8

    [fmt.Sscanf] reads its input rune by rune. *)

Module utf8.

Definition rune := Z.

Definition RuneError : rune := 65533.

(** The table [first] of the package: for a leading byte, the size of the
    sequence and the accepted range of its second byte; [None] stands for
    an invalid leading byte. *)
Definition first (p0 : Z) : option (Z * Z * Z) :=
  if p0 <? 194 then None
  else if p0 <=? 223 then Some (2, 128, 191)
  else if p0 =? 224 then Some (3, 160, 191)
  else if p0 <=? 236 then Some (3, 128, 191)
  else if p0 =? 237 then Some (3, 128, 159)
  else if p0 <=? 239 then Some (3, 128, 191)
  else if p0 =? 240 then Some (4, 144, 191)
  else if p0 <=? 243 then Some (4, 128, 191)
  else if p0 =? 244 then Some (4, 128, 143)
  else None.

Definition byteAt (p : bytes) (i : nat) : Z := code (nth i p zero).

Definition continuation (b : Z) : bool := (128 <=? b) && (b <=? 191).

(** [utf8.DecodeRune(p)]: the rune and its width in bytes. *)
Definition DecodeRune (p : bytes) : rune * nat :=
  match p with
  | [] => (RuneError, 0%nat)
  | c0 :: _ =>
      let p0 := code c0 in
      if p0 <? 128 then (p0, 1%nat)
      else
        match first p0 with
        | None => (RuneError, 1%nat)
        | Some (sz, lo, hi) =>
            if len p <? sz then (RuneError, 1%nat)
            else
              let b1 := byteAt p 1 in
              if (b1 <? lo) || (hi <? b1) then (RuneError, 1%nat)
              else if sz <=? 2 then
                (Z.lor (Z.shiftl (Z.land p0 31) 6) (Z.land b1 63), 2%nat)
              else
                let b2 := byteAt p 2 in
                if negb (continuation b2) then (RuneError, 1%nat)
                else if sz <=? 3 then
                  (Z.lor (Z.lor (Z.shiftl (Z.land p0 15) 12)
                                (Z.shiftl (Z.land b1 63) 6))
                         (Z.land b2 63), 3%nat)
                else
                  let b3 := byteAt p 3 in
                  if negb (continuation b3) then (RuneError, 1%nat)
                  else
                    (Z.lor (Z.lor (Z.lor (Z.shiftl (Z.land p0 7) 18)
                                         (Z.shiftl (Z.land b1 63) 12))
                                  (Z.shiftl (Z.land b2 63) 6))
                           (Z.land b3 63), 4%nat)
        end
  end.

(** The runes of a string, in reading order. *)
Fixpoint decode (fuel : nat) (p : bytes) : list rune :=
  match fuel with
  | O => []
  | S fuel' =>
      match p with
      | [] => []
      | _ => let '(r, w) := DecodeRune p in r :: decode fuel' (skipn w p)
      end
  end.

Definition runes (p : bytes) : list rune := decode (List.length p) p.

End utf8.

(** ** fmt: formatted scanning

    [fmt.Sscanf] as the client calls it: formats made of literal text,
    spaces, newlines and the verb [%d] without width, operands of type
    [*uint64] and [*int].  A failure inside the scanner is a panic that
    [doScanf] recovers into the returned error; operands scanned before the
    failure keep the values stored in them.  The scanner's cap of 2^30 runes
    per input is left out. *)

Module fmt.
Import utf8.

(** The result of a scanning step: the input left, or the error raised. *)
Inductive scan (A : Type) : Type :=
| Got (a : A) (rest : list rune)
| Raise (e : error).
Arguments Got {A} a rest.
Arguments Raise {A} e.

(** The table [space] of the package. *)
Definition isSpace (r : rune) : bool :=
  if r >=? 65536 then false
  else ((9 <=? r) && (r <=? 13)) || (r =? 32) || (r =? 133) || (r =? 160)
       || (r =? 5760) || ((8192 <=? r) && (r <=? 8202))
       || ((8232 <=? r) && (r <=? 8233)) || (r =? 8239) || (r =? 8287)
       || (r =? 12288).

Definition isNewline (r : rune) : bool := r =? 10.
Definition isPercent (r : rune) : bool := r =? 37.

(** [s.peek("\n")]. *)
Definition peekNewline (inp : list rune) : bool :=
  match inp with
  | r :: _ => isNewline r
  | [] => false
  end.

(** [ss.SkipSpace] with [nlIsSpace] unset, as [Sscanf] runs it. *)
Fixpoint SkipSpace (inp : list rune) : scan unit :=
  match inp with
  | [] => Got tt []
  | r :: rest =>
      if (r =? 13) && peekNewline rest then SkipSpace rest
      else if isNewline r then Raise (ScanError "unexpected newline")
      else if isSpace r then SkipSpace rest
      else Got tt inp
  end.

(** The digits [ss.getBase] gives for the verb [d]: ["0123456789"]. *)
Definition decimalDigit (r : rune) : bool := (48 <=? r) && (r <=? 57).

(** The sign characters: ["+-"]. *)
Definition isSign (r : rune) : bool := (r =? 43) || (r =? 45).

(** [for s.accept(digits) {}]: the accepted runes and the input left. *)
Fixpoint acceptAll (ok : rune -> bool) (inp : list rune) : list rune * list rune :=
  match inp with
  | r :: rest =>
      if ok r then let '(tok, rest') := acceptAll ok rest in (r :: tok, rest')
      else ([], inp)
  | [] => ([], [])
  end.

(** The token buffer as a string; every accepted rune is ASCII. *)
Definition token (buf : list rune) : bytes := map chr buf.

(** [ss.scanNumber(digits, false)], after [buf] was accepted. *)
Definition scanNumber (buf : list rune) (inp : list rune) : scan (list rune) :=
  match inp with
  | [] => Raise EOF
  | r :: rest =>
      if decimalDigit r then
        let '(tok, rest') := acceptAll decimalDigit rest in
        Got (buf ++ r :: tok) rest'
      else Raise (ScanError "expected integer")
  end.

(** [ss.scanUint('d', 64)]. *)
Definition scanUint (inp : list rune) : scan Z :=
  match SkipSpace inp with
  | Raise e => Raise e
  | Got _ [] => Raise EOF
  | Got _ inp1 =>
      match scanNumber [] inp1 with
      | Raise e => Raise e
      | Got tok rest =>
          match strconv.ParseUint (token tok) with
          | (_, Some e) => Raise (NumError "strconv.ParseUint" (token tok) e)
          | (i, None) => Got i rest
          end
      end
  end.

(** [ss.scanInt('d', 64)]. *)
Definition scanInt (inp : list rune) : scan Z :=
  match SkipSpace inp with
  | Raise e => Raise e
  | Got _ [] => Raise EOF
  | Got _ ((r :: rest1) as inp1) =>
      let '(buf, inp2) := if isSign r then ([r], rest1) else ([], inp1) in
      match scanNumber buf inp2 with
      | Raise e => Raise e
      | Got tok rest =>
          match strconv.ParseInt (token tok) with
          | (_, Some e) => Raise (NumError "strconv.ParseInt" (token tok) e)
          | (i, None) => Got i rest
          end
      end
  end.

(** The operands the client passes: [&id] of type [*uint64] and
    [&dataLen] of type [*int]. *)
Inductive operand := Uint64Ptr | IntPtr.

(** [ss.scanOne(verb, arg)] for these operands. *)
Definition scanOne (verb : rune) (arg : operand) (inp : list rune) : scan Z :=
  if verb =? 100 then
    match arg with
    | Uint64Ptr => scanUint inp
    | IntPtr => scanInt inp
    end
  else Raise (ScanError "bad verb for integer").

(** [ss.scanPercent]. *)
Definition scanPercent (inp : list rune) : scan unit :=
  match SkipSpace inp with
  | Raise e => Raise e
  | Got _ [] => Raise EOF
  | Got _ (r :: rest) =>
      if isPercent r then Got tt rest
      else Raise (ScanError "missing literal %")
  end.

(** The run of spaces at the head of the format: the number of newlines
    in it, whether a space follows the last newline, the runes of the
    format consumed and the format left. *)
Fixpoint spaceRun (format : list rune) (newlines : nat) (trailingSpace : bool)
    (w : Z) : nat * bool * Z * list rune :=
  match format with
  | fmtc :: format' =>
      if isSpace fmtc then
        if isNewline fmtc then spaceRun format' (S newlines) false (w + 1)
        else spaceRun format' newlines true (w + 1)
      else (newlines, trailingSpace, w, format)
  | [] => (newlines, trailingSpace, w, [])
  end.

(** [inputc := s.getRune(); for isSpace(inputc) && inputc != '\n' { inputc = s.getRune() }]:
    the rune the loop stops at ([None] at the end of the input). *)
Fixpoint skipBlanks (inp : list rune) : option rune * list rune :=
  match inp with
  | [] => (None, [])
  | r :: rest =>
      if isSpace r && negb (isNewline r) then skipBlanks rest
      else (Some r, rest)
  end.

(** A newline of the format matches spaces and then a newline or the end
    of the input. *)
Fixpoint matchNewlines (newlines : nat) (inp : list rune) : scan unit :=
  match newlines with
  | O => Got tt inp
  | S k =>
      match skipBlanks inp with
      | (None, rest) => matchNewlines k rest
      | (Some r, rest) =>
          if isNewline r then matchNewlines k rest
          else Raise (ScanError "newline in format does not match input")
      end
  end.

(** Spaces of the format after its last newline (or with no newline). *)
Definition matchTrailingSpace (newlines : nat) (inp : list rune) : scan unit :=
  let check :=
    match newlines, inp with
    | O, r :: _ =>
        if negb (isSpace r) then
          Some (ScanError "expected space in input to match format")
        else if isNewline r then
          Some (ScanError "newline in input does not match format")
        else None
    | _, _ => None
    end in
  match check with
  | Some e => Raise e
  | None =>
      match skipBlanks inp with
      | (None, _) => Got tt []
      | (Some r, rest) => Got tt (r :: rest)
      end
  end.

(** What [advance] reports: the runes of the format it consumed ([-1] when
    the input did not match), the format and the input left. *)
Inductive advanced :=
| Adv (w : Z) (format : list rune) (inp : list rune)
| AdvRaise (e : error).

(** [ss.advance(format)]; [i] is the count of format runes consumed. *)
Fixpoint advance (fuel : nat) (format : list rune) (i : Z) (inp : list rune)
    : advanced :=
  match fuel, format with
  | O, _ => Adv i format inp
  | _, [] => Adv i [] inp
  | S fuel', fmtc :: format' =>
      if isSpace fmtc then
        let '(newlines, trailingSpace, w, format2) := spaceRun format 0 false 0 in
        match matchNewlines newlines inp with
        | Raise e => AdvRaise e
        | Got _ inp1 =>
            match (if trailingSpace then matchTrailingSpace newlines inp1
                   else Got tt inp1) with
            | Raise e => AdvRaise e
            | Got _ inp2 => advance fuel' format2 (i + w) inp2
            end
        end
      else
        let literal (after : list rune) (i' : Z) :=
          match inp with
          | [] => AdvRaise ErrUnexpectedEOF
          | inputc :: rest =>
              if fmtc =? inputc then advance fuel' after i' rest
              else Adv (-1) format inp
          end in
        if isPercent fmtc then
          match format' with
          | [] => AdvRaise (ScanError "missing verb: % at end of format string")
          | nextc :: format'' =>
              if isPercent nextc then literal format'' (i + 2)
              else Adv i format inp
          end
        else literal format' (i + 1)
  end.

(** The check after the loop of [doScanf]. *)
Definition finish (a : list operand) (stored : list Z) : list Z * option error :=
  match a with
  | [] => (stored, None)
  | _ :: _ => (stored, Some (ScanError "too many operands"))
  end.

(** [ss.doScanf(format, a)]: the values stored into the operands, in
    order, and the error. *)
Fixpoint doScanf (fuel : nat) (format : list rune) (a : list operand)
    (stored : list Z) (inp : list rune) : list Z * option error :=
  match fuel, format with
  | O, _ => finish a stored
  | _, [] => finish a stored
  | S fuel', c0 :: format' =>
      match advance (List.length format) format 0 inp with
      | AdvRaise e => (stored, Some e)
      | Adv w format1 inp1 =>
          if w >? 0 then doScanf fuel' format1 a stored inp1
          else if negb (isPercent c0) then
            if w <? 0 then (stored, Some (ScanError "input does not match format"))
            else finish a stored
          else
            match format' with
            | [] => finish a stored
            | c :: format2 =>
                match (if c =? 99 then Got tt inp1 else SkipSpace inp1) with
                | Raise e => (stored, Some e)
                | Got _ inp2 =>
                    if isPercent c then
                      match scanPercent inp2 with
                      | Raise e => (stored, Some e)
                      | Got _ inp3 => doScanf fuel' format2 a stored inp3
                      end
                    else
                      match a with
                      | [] => (stored, Some (ScanError "too few operands for format"))
                      | arg :: a' =>
                          match scanOne c arg inp2 with
                          | Raise e => (stored, Some e)
                          | Got v inp3 =>
                              doScanf fuel' format2 a' (stored ++ [v]) inp3
                          end
                      end
                end
            end
      end
  end.

(** [fmt.Sscanf(str, format, a...)]. *)
Definition Sscanf (str : bytes) (format : bytes) (a : list operand)
    : list Z * option error :=
  doScanf (S (List.length format)) (runes format) a [] (runes str).


(** [fmt.Sprintf] and [fmt.Errorf] for the formats of the client: a format
    is given by its pieces, literal text and verbs with their operand. *)
Inductive piece :=
| lit (text : bytes)
| verb_d (v : Z)          (* %d of an integer operand *)
| verb_s (s : bytes)      (* %s of a string operand *)
| verb_v (s : bytes).     (* %v of a string operand *)

Definition render (p : piece) : bytes :=
  match p with
  | lit text => text
  | verb_d v => strconv.Itoa v
  | verb_s s => s
  | verb_v s => s
  end.

Definition Sprintf (format : list piece) : bytes := List.concat (map render format).

Definition Errorf (format : list piece) : error := Errorf (Sprintf format).

End fmt.

(** ** The TCP connection and the buffered reader over it *)

Module net.

(** One connection.  [script] lists what the coming calls of [Write]
    will do: how many bytes the transport takes at most, and the error
    the call reports; when the script is used up the transport takes no
    more bytes and [Write] blocks for ever.  [incoming] holds the bytes
    the server sends; once they are read, a read reports [readEnd], or
    blocks for ever when there is none. *)
Record Conn := {
  script : list (nat * option error);
  wire : bytes;
  incoming : bytes;
  readEnd : option error;
  closeErr : option error;
  closed : bool
}.

Definition setIncoming (c : Conn) (p : bytes) : Conn :=
  {| script := script c; wire := wire c; incoming := p;
     readEnd := readEnd c; closeErr := closeErr c; closed := closed c |}.

(** [conn.Write(p)]: the count of bytes taken and the error, or [None]
    when the call never returns. *)
Definition Write (c : Conn) (p : bytes) : option (Z * option error * Conn) :=
  if closed c then Some (0, Some ErrClosed, c)
  else
    match script c with
    | [] => None
    | (k, err) :: script' =>
        let n := Nat.min k (List.length p) in
        Some (Z.of_nat n, err,
              {| script := script'; wire := wire c ++ firstn n p;
                 incoming := incoming c; readEnd := readEnd c;
                 closeErr := closeErr c; closed := false |})
    end.

(** [conn.Close()]. *)
Definition Close (c : Conn) : option error * Conn :=
  (if closed c then Some ErrClosed else closeErr c,
   {| script := script c; wire := wire c; incoming := incoming c;
      readEnd := readEnd c; closeErr := closeErr c; closed := true |}).

End net.

(** ** The client *)

Definition defaultPriority : Z := Z.shiftl 1 31.
Definition defaultTTR : Z := 120.

Definition errorTable : list (bytes * error) :=
  [ (B "DEADLINE_SOON" ++ CRLF, errDeadlineSoon);
    (B "TIMED_OUT" ++ CRLF, errTimedOut);
    (B "EXPECTED_CRLF" ++ CRLF, errExpectedCrlf);
    (B "JOB_TOO_BIG" ++ CRLF, errJobTooBig);
    (B "DRAINING" ++ CRLF, errDraining);
    (B "BURIED" ++ CRLF, errBuried);
    (B "NOT_FOUND" ++ CRLF, errNotFound);
    (* common error *)
    (B "OUT_OF_MEMORY" ++ CRLF, errOutOfMemory);
    (B "INTERNAL_ERROR" ++ CRLF, errInternalError);
    (B "BAD_FORMAT" ++ CRLF, errBadFormat);
    (B "UNKNOWN_COMMAND" ++ CRLF, errUnknownCommand) ].

(** [v, ok := m[key]] on a map given by its entries (the keys of
    [errorTable] are distinct). *)
Fixpoint lookup (m : list (bytes * error)) (key : bytes) : option error :=
  match m with
  | [] => None
  | (k, v) :: m' => if beqb k key then Some v else lookup m' key
  end.

(** The receiver: [bufReader] is the buffered reader over [conn] and reads
    the connection's [incoming] bytes. *)
Record Beanstalkd := {
  conn : option net.Conn;
  addr : bytes
}.

(** [ID] is a [uint64]; a nil [Data] and an empty one are both [[]]. *)
Record Job := {
  ID : Z;
  Data : bytes
}.

Definition itoa (i : Z) : bytes := strconv.Itoa i.
Definition utoa (i : Z) : bytes := strconv.FormatUint i.

(** The state a call runs in: the client and the warnings logged so far. *)
Record State := {
  self : Beanstalkd;
  warnings : list bytes
}.

Definition setConn (s : State) (c : net.Conn) : State :=
  {| self := {| conn := Some c; addr := addr (self s) |};
     warnings := warnings s |}.

(** What a call does: it returns a value, panics, or never returns. *)
Inductive outcome (A : Type) : Type :=
| Returns (a : A) (s : State)
| Panics (msg : string) (s : State)
| Blocks (s : State).
Arguments Returns {A} a s.
Arguments Panics {A} msg s.
Arguments Blocks {A} s.

Definition M (A : Type) : Type := State -> outcome A.

Definition ret {A} (a : A) : M A := fun s => Returns a s.

Definition bind {A C} (m : M A) (k : A -> M C) : M C :=
  fun s =>
    match m s with
    | Returns a s' => k a s'
    | Panics msg s' => Panics msg s'
    | Blocks s' => Blocks s'
    end.

Definition panic {A} (msg : string) : M A := fun s => Panics msg s.

Notation "x <- m ;; k" := (bind m (fun x => k))
  (at level 61, m at next level, right associativity).
Notation "' p <- m ;; k" := (bind m (fun x => match x with p => k end))
  (at level 61, p pattern, m at next level, right associativity).

Definition nilDereference : string :=
  "invalid memory address or nil pointer dereference".

(** [beanstalkd.conn.Write(p)]. *)
Definition connWrite (p : bytes) : M (Z * option error) :=
  fun s =>
    match conn (self s) with
    | None => Panics nilDereference s
    | Some c =>
        match net.Write c p with
        | None => Blocks s
        | Some (n, err, c') => Returns (n, err) (setConn s c')
        end
    end.

(** The bytes up to and including the first line feed, and the rest. *)
Fixpoint splitLine (p : bytes) : option (bytes * bytes) :=
  match p with
  | [] => None
  | c :: p' =>
      if Ascii.eqb c LF then Some ([c], p')
      else
        match splitLine p' with
        | Some (line, rest) => Some (c :: line, rest)
        | None => None
        end
  end.

(** [beanstalkd.bufReader.ReadString('\n')]. *)
Definition ReadString : M (bytes * option error) :=
  fun s =>
    match conn (self s) with
    | None => Panics nilDereference s
    | Some c =>
        match splitLine (net.incoming c) with
        | Some (line, rest) => Returns (line, None) (setConn s (net.setIncoming c rest))
        | None =>
            match net.readEnd c with
            | Some e => Returns (net.incoming c, Some e) (setConn s (net.setIncoming c []))
            | None => Blocks s
            end
        end
    end.

(** [io.ReadFull(beanstalkd.bufReader, data)] for a zeroed buffer [data] of
    [m] bytes: the count of bytes read, the buffer and the error. *)
Definition ReadFull (m : Z) : M (Z * bytes * option error) :=
  fun s =>
    match conn (self s) with
    | None => Panics nilDereference s
    | Some c =>
        let avail := net.incoming c in
        if m <=? len avail then
          Returns (m, firstn (Z.to_nat m) avail, None)
                  (setConn s (net.setIncoming c (skipn (Z.to_nat m) avail)))
        else
          match net.readEnd c with
          | Some e =>
              let err :=
                match e with
                | EOF => if 0 <? len avail then ErrUnexpectedEOF else EOF
                | _ => e
                end in
              Returns (len avail,
                       avail ++ repeat zero (Z.to_nat m - List.length avail),
                       Some err)
                      (setConn s (net.setIncoming c []))
          | None => Blocks s
          end
    end.

(** Modelled from the spec: [LogWarning], defined elsewhere in the
    repository, is the logging sink: it records the formatted message and
    does not affect control flow. *)
Definition LogWarning (format : list fmt.piece) : M unit :=
  fun s =>
    Returns tt {| self := self s;
                  warnings := warnings s ++ [fmt.Sprintf format] |}.

Definition parseBeanstalkError (str : bytes) : error :=
  match lookup errorTable str with
  | Some err => err
  | None => fmt.Errorf [fmt.lit (B "unknown error: "); fmt.verb_v str]
  end.

(** The loop of [sendAll]; every turn calls [Write] once, and [fuel] is
    more than the calls of [Write] that can return. *)
Fixpoint sendLoop (fuel : nat) (lengthData : Z) (toWrite : bytes)
    (totalWritten : Z) : M (Z * option error) :=
  if totalWritten <? lengthData then
    match fuel with
    | O => fun s => Blocks s
    | S fuel' =>
        '(n, err) <- connWrite toWrite ;;
        match err with
        | Some e =>
            if negb (isTemporary e) then ret (totalWritten, Some e)
            else sendLoop fuel' lengthData (skipn (Z.to_nat n) toWrite)
                          (totalWritten + n)
        | None =>
            sendLoop fuel' lengthData (skipn (Z.to_nat n) toWrite)
                     (totalWritten + n)
        end
    end
  else ret (totalWritten, None).

Definition sendAll (data : bytes) : M (Z * option error) :=
  fun s =>
    match conn (self s) with
    | None => Returns (0, Some errNoConnection) s
    | Some c =>
        let lengthData := len data in
        let toWrite := data in
        let totalWritten := 0 in
        sendLoop (S (List.length (net.script c))) lengthData toWrite totalWritten s
    end.

Definition makesliceRange : string := "makeslice: len out of range".
Definition sliceBounds : string := "slice bounds out of range".

(** The runtime's limit on the size of one allocation, [1 << 48] bytes on
    64-bit Linux: [make] panics for a length that is negative or above it,
    before anything is read.  Below the limit the memory is taken to be
    there. *)
Definition maxAlloc : Z := 2 ^ 48.

Definition readData (dataLen : Z) : M (bytes * option error) :=
  let size := wrap_int (dataLen + 2) in   (* +2 is for trailing \r\n *)
  if (size <? 0) || (maxAlloc <? size) then panic makesliceRange
  else
    '(n, data, err) <- ReadFull size ;;
    match err with
    | Some e => ret ([], Some e)
    | None =>
        let high := wrap_int (n - 2) in
        if (high <? 0) || (len data <? high) then panic sliceBounds
        else ret (firstn (Z.to_nat high) data, None)   (* strip \r\n trail *)
    end.

Definition sendCommand (command : bytes) : M (bytes * option error) :=
  '(_, err) <- sendAll command ;;
  match err with
  | Some e => ret ([], Some e)
  | None =>
      '(resp, err) <- ReadString ;;
      match err with
      | Some e => ret ([], Some e)
      | None => ret (resp, None)
      end
  end.

Definition sendCommandAndCheck (command expected : bytes) : M (option error) :=
  '(resp, err) <- sendCommand command ;;
  match err with
  | Some e => ret (Some e)
  | None =>
      if negb (beqb resp expected) then ret (Some (parseBeanstalkError resp))
      else ret None
  end.

(** [beanstalkd.conn.Close()] when [conn] is not nil. *)
Definition connClose : M (option error) :=
  fun s =>
    match conn (self s) with
    | None => Panics nilDereference s
    | Some c => let '(err, c') := net.Close c in Returns err (setConn s c')
    end.

Definition connIsNil : M bool :=
  fun s => Returns (match conn (self s) with None => true | Some _ => false end) s.

Definition quitCommand : bytes := B "quit " ++ CRLF.

Definition Close : M unit :=
  _ <- sendAll quitCommand ;;
  isNil <- connIsNil ;;
  if negb isNil then
    err <- connClose ;;
    match err with
    | Some e =>
        LogWarning [fmt.lit (B "Failed to close the cnx to beanstalkd: ");
                    fmt.verb_s (Error e)]
    | None => ret tt
    end
  else ret tt.

(** The command [Watch] builds with its [strings.Builder]. *)
Definition watchCommand (tubename : bytes) : bytes :=
  B "watch " ++ tubename ++ CRLF.

Definition Watch (tubename : bytes) : M (option error) :=
  '(resp, err) <- sendCommand (watchCommand tubename) ;;
  match err with
  | Some e => ret (Some e)
  | None =>
      let '(_, err) := fmt.Sscanf resp (B "WATCHING %d" ++ CRLF) [fmt.IntPtr] in
      match err with
      | Some _ => ret (Some (parseBeanstalkError resp))
      | None => ret None
      end
  end.

Definition useCommand (tubename : bytes) : bytes :=
  B "use " ++ tubename ++ CRLF.

Definition Use (tubename : bytes) : M (option error) :=
  let expected := fmt.Sprintf [fmt.lit (B "USING "); fmt.verb_s tubename;
                                fmt.lit CRLF] in
  sendCommandAndCheck (useCommand tubename) expected.

(** The command [Put] builds: the writes to its [strings.Builder], in order. *)
Definition putCommand (data : bytes) : bytes :=
  B "put " ++ utoa defaultPriority ++ B " 0 " ++ utoa defaultTTR
    ++ [" "%char] ++ itoa (len data) ++ CRLF ++ data ++ CRLF.

Definition Put (data : bytes) : M (Z * option error) :=
  '(resp, err) <- sendCommand (putCommand data) ;;
  match err with
  | Some e => ret (0, Some e)
  | None =>
      if HasPrefix resp (B "IN") then
        let '(vals, err) := fmt.Sscanf resp (B "INSERTED %d" ++ CRLF) [fmt.Uint64Ptr] in
        let id := nth 0 vals 0 in
        ret (id, err)
      else if HasPrefix resp (B "BU") then
        let '(vals, _) := fmt.Sscanf resp (B "BURIED %d" ++ CRLF) [fmt.Uint64Ptr] in
        let id := nth 0 vals 0 in
        ret (id, Some errBuried)
      else ret (0, Some (parseBeanstalkError resp))
  end.

Definition deleteCommand (id : Z) : bytes :=
  B "delete " ++ utoa id ++ CRLF.

Definition Delete (id : Z) : M (option error) :=
  let expected := B "DELETED" ++ CRLF in
  sendCommandAndCheck (deleteCommand id) expected.

Definition reserveCommand : bytes := B "reserve" ++ CRLF.

Definition Reserve : M (option Job * option error) :=
  '(resp, err) <- sendCommand reserveCommand ;;
  match err with
  | Some e => ret (None, Some e)
  | None =>
      if HasPrefix resp (B "RESERVED") then
        let '(vals, err) :=
          fmt.Sscanf resp (B "RESERVED %d %d" ++ CRLF) [fmt.Uint64Ptr; fmt.IntPtr] in
        let id := nth 0 vals 0 in
        let dataLen := nth 1 vals 0 in
        match err with
        | Some e => ret (None, Some e)
        | None =>
            '(data, err) <- readData dataLen ;;
            ret (Some {| ID := id; Data := data |}, err)
        end
      else ret (None, Some (parseBeanstalkError resp))
  end.

Definition buryCommand (id : Z) : bytes :=
  fmt.Sprintf [fmt.lit (B "bury "); fmt.verb_d id; fmt.lit (B " ");
                fmt.verb_d defaultPriority; fmt.lit CRLF].

Definition Bury (id : Z) : M (option error) :=
  let expected := B "BURIED" ++ CRLF in
  sendCommandAndCheck (buryCommand id) expected.

Definition releaseCommand (id : Z) : bytes :=
  fmt.Sprintf [fmt.lit (B "release "); fmt.verb_d id; fmt.lit (B " ");
                fmt.verb_d defaultPriority; fmt.lit (B " "); fmt.verb_d 0;
                fmt.lit CRLF].

Definition Release (id : Z) : M (option error) :=
  let expected := B "RELEASED" ++ CRLF in
  sendCommandAndCheck (releaseCommand id) expected.

Definition kickJobCommand (id : Z) : bytes :=
  fmt.Sprintf [fmt.lit (B "kick-job "); fmt.verb_d id; fmt.lit CRLF].

Definition KickJob (id : Z) : M (option error) :=
  let expected := B "KICKED" ++ CRLF in
  sendCommandAndCheck (kickJobCommand id) expected.

Definition kickCommand (bound : Z) : bytes :=
  fmt.Sprintf [fmt.lit (B "kick "); fmt.verb_d bound; fmt.lit CRLF].

Definition Kick (bound : Z) : M (Z * option error) :=
  '(resp, err) <- sendCommand (kickCommand bound) ;;
  match err with
  | Some e => ret (0, Some e)
  | None =>
      if HasPrefix resp (B "KICKED") then
        let '(vals, err) := fmt.Sscanf resp (B "KICKED %d" ++ CRLF) [fmt.Uint64Ptr] in
        let kicked := nth 0 vals 0 in
        ret (kicked, err)
      else ret (0, Some (parseBeanstalkError resp))
  end.

(** ** Vocabulary of the statements *)

(** Decimal digits, the value of a digit string read after [a], ASCII bytes,
    and the runes of a format that stand for themselves. *)
Definition isDigit (c : ascii) : bool := (48 <=? code c) && (code c <=? 57).

Definition value (ds : bytes) (a : Z) : Z :=
  fold_left (fun a c => a * 10 + (code c - 48)) ds a.

Definition isASCII (c : ascii) : bool := code c <? 128.

Definition plain (r : utf8.rune) : bool :=
  negb (fmt.isSpace r) && negb (fmt.isPercent r).

(** A line as [ReadString] returns it: its only line feed is its last byte. *)
Fixpoint isLine (p : bytes) : bool :=
  match p with
  | [] => false
  | c :: p' =>
      match p' with
      | [] => Ascii.eqb c LF
      | _ :: _ => negb (Ascii.eqb c LF) && isLine p'
      end
  end.

(** An outcome of [Write] on which [sendAll] gives up. *)
Definition fatal (err : option error) : bool :=
  match err with
  | Some e => negb (isTemporary e)
  | None => false
  end.

(** The script lets [n] more bytes through: no fatal error and no end of
    the script before they are all taken. *)
Fixpoint carries (script : list (nat * option error)) (n : nat) : bool :=
  match script with
  | [] => Nat.eqb n 0
  | (k, err) :: script' =>
      if Nat.eqb n 0 then true
      else if fatal err then false
      else carries script' (n - Nat.min k n)
  end.

(** The script decides the fate of a write of [n] bytes: they all pass, or
    a fatal error stops it; the transport does not block. *)
Fixpoint settles (script : list (nat * option error)) (n : nat) : bool :=
  match script with
  | [] => Nat.eqb n 0
  | (k, err) :: script' =>
      if Nat.eqb n 0 then true
      else if fatal err then true
      else settles script' (n - Nat.min k n)
  end.

(** What is left of the script once [n] bytes have passed. *)
Fixpoint remaining (script : list (nat * option error)) (n : nat)
    : list (nat * option error) :=
  match script with
  | [] => []
  | (k, err) :: script' =>
      if Nat.eqb n 0 then script else remaining script' (n - Nat.min k n)
  end.

Definition wireOf (s : State) : bytes :=
  match conn (self s) with
  | Some c => net.wire c
  | None => []
  end.

Definition incomingOf (s : State) : bytes :=
  match conn (self s) with
  | Some c => net.incoming c
  | None => []
  end.

(** The client has an open connection whose transport carries [command],
    and the server's bytes are [reply] followed by [rest]. *)
Definition served (s : State) (command reply rest : bytes) : Prop :=
  exists c,
    conn (self s) = Some c /\ net.closed c = false /\
    carries (net.script c) (List.length command) = true /\
    net.incoming c = reply ++ rest.

(** The state after such an exchange: [command] is on the wire and [rest]
    is what remains to read. *)
Definition afterExchange (s : State) (command rest : bytes) : State :=
  match conn (self s) with
  | Some c =>
      setConn s {| net.script := remaining (net.script c) (List.length command);
                   net.wire := net.wire c ++ command;
                   net.incoming := rest;
                   net.readEnd := net.readEnd c;
                   net.closeErr := net.closeErr c;
                   net.closed := false |}
  | None => s
  end.

(** The reading side and the closing of a connection are as before. *)
Definition untouched (c c' : net.Conn) : Prop :=
  net.incoming c' = net.incoming c /\ net.readEnd c' = net.readEnd c /\
  net.closeErr c' = net.closeErr c /\ net.closed c' = net.closed c.

(** A connection whose transport takes the bytes in pieces, with a
    transient error in between, and whose server sends [replies]. *)
Definition sampleConn (replies : bytes) : net.Conn :=
  {| net.script := [(3%nat, None);
                    (0%nat, Some (NetError true "timeout"));
                    (4096%nat, None)];
     net.wire := [];
     net.incoming := replies;
     net.readEnd := Some EOF;
     net.closeErr := None;
     net.closed := false |}.

Definition sampleState (replies : bytes) : State :=
  {| self := {| conn := Some (sampleConn replies); addr := B "127.0.0.1:6014" |};
     warnings := [] |}.

(** An operation that sends [command] and succeeds exactly on the reply
    [expected]: whatever line the server sends, the command is on the wire,
    the call returns nil when the line is [expected] and the classified
    error otherwise. *)
Definition exactReply (op : M (option error)) (command expected : bytes) : Prop :=
  forall s resp rest,
    served s command resp rest -> isLine resp = true ->
    exists r,
      op s = Returns r (afterExchange s command rest) /\
      wireOf (afterExchange s command rest) = wireOf s ++ command /\
      (r = None <-> resp = expected) /\
      (resp <> expected -> r = Some (parseBeanstalkError resp)).

(** The public operations that await a response, with their arguments. *)
Inductive operation :=
| OpWatch (tubename : bytes)
| OpUse (tubename : bytes)
| OpPut (data : bytes)
| OpDelete (id : Z)
| OpReserve
| OpBury (id : Z)
| OpRelease (id : Z)
| OpKickJob (id : Z)
| OpKick (bound : Z).

(** The error an operation returns. *)
Definition run (op : operation) : M (option error) :=
  match op with
  | OpWatch tubename => Watch tubename
  | OpUse tubename => Use tubename
  | OpPut data => '(_, err) <- Put data ;; ret err
  | OpDelete id => Delete id
  | OpReserve => '(_, err) <- Reserve ;; ret err
  | OpBury id => Bury id
  | OpRelease id => Release id
  | OpKickJob id => KickJob id
  | OpKick bound => '(_, err) <- Kick bound ;; ret err
  end.

(** The command an operation sends. *)
Definition commandOf (op : operation) : bytes :=
  match op with
  | OpWatch tubename => watchCommand tubename
  | OpUse tubename => useCommand tubename
  | OpPut data => putCommand data
  | OpDelete id => deleteCommand id
  | OpReserve => reserveCommand
  | OpBury id => buryCommand id
  | OpRelease id => releaseCommand id
  | OpKickJob id => kickJobCommand id
  | OpKick bound => kickCommand bound
  end.

(** The response lines an operation hands to [parseBeanstalkError]: those
    that do not start with its success keyword, that fail the scan of
    [Watch], or that differ from its expected literal. *)
Definition toClassifier (op : operation) (resp : bytes) : bool :=
  match op with
  | OpWatch _ =>
      match snd (fmt.Sscanf resp (B "WATCHING %d" ++ CRLF) [fmt.IntPtr]) with
      | Some _ => true
      | None => false
      end
  | OpUse tubename => negb (beqb resp (B "USING " ++ tubename ++ CRLF))
  | OpPut _ => negb (HasPrefix resp (B "IN")) && negb (HasPrefix resp (B "BU"))
  | OpDelete _ => negb (beqb resp (B "DELETED" ++ CRLF))
  | OpReserve => negb (HasPrefix resp (B "RESERVED"))
  | OpBury _ => negb (beqb resp (B "BURIED" ++ CRLF))
  | OpRelease _ => negb (beqb resp (B "RELEASED" ++ CRLF))
  | OpKickJob _ => negb (beqb resp (B "KICKED" ++ CRLF))
  | OpKick _ => negb (HasPrefix resp (B "KICKED"))
  end.

(** The pairs of an operation and a response line that the statement on
    the error table sets apart: [BURIED] is the success reply of [Bury],
    and nothing is said of the lines that start with [IN] in reply to
    [Put]. *)
Definition setApart (op : operation) (resp : bytes) : bool :=
  match op with
  | OpPut _ => HasPrefix resp (B "IN")
  | OpBury _ => beqb resp (B "BURIED" ++ CRLF)
  | _ => false
  end.

(** The warning [Close] logs for a failure [e] of [conn.Close()]. *)
Definition closeWarning (e : error) : bytes :=
  B "Failed to close the cnx to beanstalkd: " ++ Error e.

(** * Proofs *)

(** ** Tactics *)

(** Settles the comparisons of a goal that linear arithmetic decides. *)
Ltac cmp :=
  repeat match goal with
  | |- context [?a >=? ?b] => rewrite (Z.geb_leb a b)
  | |- context [?a >? ?b] => rewrite (Z.gtb_ltb a b)
  | |- context [?a <=? ?b] =>
      first [ rewrite (proj2 (Z.leb_le a b)) by lia
            | rewrite (proj2 (Z.leb_gt a b)) by lia ]
  | |- context [?a <? ?b] =>
      first [ rewrite (proj2 (Z.ltb_lt a b)) by lia
            | rewrite (proj2 (Z.ltb_ge a b)) by lia ]
  | |- context [?a =? ?b] =>
      first [ rewrite (proj2 (Z.eqb_eq a b)) by lia
            | rewrite (proj2 (Z.eqb_neq a b)) by lia ]
  end.

(** The sample connection serves a given command and reply. *)
Ltac served_sample :=
  eexists; split; [reflexivity|]; split; [reflexivity|];
  split; vm_compute; reflexivity.

(** ** Bytes *)

Lemma code_range (c : ascii) : 0 <= code c < 256.
Proof.
  unfold code. pose proof (N_ascii_bounded c). lia.
Qed.

Lemma code_chr (z : Z) : 0 <= z < 256 -> code (chr z) = z.
Proof.
  intros Hz. unfold code, chr.
  rewrite N_ascii_embedding by lia. lia.
Qed.

Lemma chr_code (c : ascii) : chr (code c) = c.
Proof.
  unfold code, chr. rewrite N2Z.id. apply ascii_N_embedding.
Qed.

Lemma beqb_eq (x y : bytes) : beqb x y = true <-> x = y.
Proof.
  revert y. induction x as [|a x IH]; destruct y as [|b y]; simpl;
    try (split; congruence).
  rewrite andb_true_iff, Ascii.eqb_eq, IH. split.
  - intros [-> ->]. reflexivity.
  - intros H. injection H as -> ->. auto.
Qed.

Lemma beqb_refl (x : bytes) : beqb x x = true.
Proof. apply beqb_eq. reflexivity. Qed.

Lemma beqb_neq (x y : bytes) : beqb x y = false <-> x <> y.
Proof.
  rewrite <- beqb_eq. destruct (beqb x y); split; congruence.
Qed.

Lemma len_app (x y : bytes) : len (x ++ y) = len x + len y.
Proof. unfold len. rewrite length_app. lia. Qed.

Lemma len_nonneg (x : bytes) : 0 <= len x.
Proof. unfold len. lia. Qed.

(** ** Decimal numbers: printing, then parsing *)



Lemma value_app ds1 ds2 a : value (ds1 ++ ds2) a = value ds2 (value ds1 a).
Proof. unfold value. apply fold_left_app. Qed.

Lemma isDigit_chr d : 0 <= d <= 9 -> isDigit (chr (48 + d)) = true.
Proof.
  intros Hd. unfold isDigit. rewrite code_chr by lia.
  apply andb_true_iff. split; apply Z.leb_le; lia.
Qed.

Lemma value_ge ds : forall a,
  forallb isDigit ds = true -> 0 <= a -> a <= value ds a.
Proof.
  induction ds as [|c ds IH]; intros a Hds Ha; simpl in *.
  - lia.
  - apply andb_true_iff in Hds as [Hc Hds].
    unfold isDigit in Hc. apply andb_true_iff in Hc as [H1 H2].
    apply Z.leb_le in H1, H2.
    specialize (IH (a * 10 + (code c - 48)) Hds). unfold value in *. lia.
Qed.

Lemma digits_S fuel n acc :
  strconv.digits (S fuel) n acc =
  if n / 10 =? 0 then chr (48 + n mod 10) :: acc
  else strconv.digits fuel (n / 10) (chr (48 + n mod 10) :: acc).
Proof. reflexivity. Qed.

Lemma value_digit d a : 0 <= d <= 9 -> value [chr (48 + d)] a = a * 10 + d.
Proof.
  intros Hd. unfold value. cbn [fold_left]. rewrite code_chr by lia. lia.
Qed.

Lemma digits_spec fuel : forall n acc,
  0 <= n < 10 ^ Z.of_nat (S fuel) ->
  exists ds,
    strconv.digits (S fuel) n acc = ds ++ acc /\ ds <> [] /\
    forallb isDigit ds = true /\
    forall a, value ds a = a * 10 ^ len ds + n.
Proof.
  induction fuel as [|fuel IH]; intros n acc Hn; rewrite digits_S;
    pose proof (Z.mod_pos_bound n 10 ltac:(lia)) as Hm;
    pose proof (Z.div_mod n 10 ltac:(lia)) as Hdm;
    destruct (n / 10 =? 0) eqn:Hq.
  1, 3: apply Z.eqb_eq in Hq;
    exists [chr (48 + n mod 10)]; repeat split; try congruence;
    [ cbn [forallb]; rewrite isDigit_chr by lia; reflexivity
    | intros a; rewrite value_digit by lia;
      change (len [chr (48 + n mod 10)]) with 1; lia ].
  - apply Z.eqb_neq in Hq. exfalso.
    change (10 ^ Z.of_nat 1) with 10 in Hn.
    rewrite Z.div_small in Hq by lia. congruence.
  - apply Z.eqb_neq in Hq.
    destruct (IH (n / 10) (chr (48 + n mod 10) :: acc)) as (ds & E & Hne & Hd & Hv).
    { split; [apply Z.div_pos; lia|].
      apply Z.div_lt_upper_bound; [lia|].
      replace (Z.of_nat (S (S fuel))) with (1 + Z.of_nat (S fuel)) in Hn by lia.
      rewrite Z.pow_add_r in Hn by lia. lia. }
    exists (ds ++ [chr (48 + n mod 10)]).
    rewrite E, <- app_assoc. repeat split.
    + destruct ds; simpl; congruence.
    + rewrite forallb_app, Hd. cbn [forallb].
      rewrite isDigit_chr by lia. reflexivity.
    + intros a. rewrite value_app, Hv, value_digit by lia. rewrite len_app.
      change (len [chr (48 + n mod 10)]) with 1.
      rewrite Z.pow_add_r by (pose proof (len_nonneg ds); lia).
      lia.
Qed.

Lemma decimal_spec n :
  0 <= n ->
  strconv.decimal n <> [] /\ forallb isDigit (strconv.decimal n) = true /\
  value (strconv.decimal n) 0 = n.
Proof.
  intros Hn. unfold strconv.decimal.
  destruct (digits_spec (Z.to_nat (Z.log2 n)) n []) as (ds & E & Hne & Hd & Hv).
  { split; [lia|].
    destruct (Z.eq_dec n 0) as [->|Hnz].
    - simpl. lia.
    - pose proof (Z.log2_spec n ltac:(lia)) as [_ Hs].
      pose proof (Z.log2_nonneg n).
      replace (Z.of_nat (S (Z.to_nat (Z.log2 n)))) with (Z.succ (Z.log2 n)) by lia.
      eapply Z.lt_le_trans; [exact Hs|].
      apply Z.pow_le_mono_l. lia. }
  rewrite E, app_nil_r.
  split; [exact Hne | split; [exact Hd | rewrite Hv; lia]].
Qed.

(** The first digit of a positive number is not [0]. *)
Lemma digits_head fuel : forall n acc,
  0 < n < 10 ^ Z.of_nat (S fuel) ->
  exists d ds, strconv.digits (S fuel) n acc = chr (48 + d) :: ds /\ 1 <= d <= 9.
Proof.
  induction fuel as [|fuel IH]; intros n acc Hn; rewrite digits_S;
    pose proof (Z.mod_pos_bound n 10 ltac:(lia)) as Hm;
    pose proof (Z.div_mod n 10 ltac:(lia)) as Hdm;
    destruct (n / 10 =? 0) eqn:Hq.
  1, 3: apply Z.eqb_eq in Hq; exists (n mod 10), acc; split; [reflexivity|lia].
  - apply Z.eqb_neq in Hq. change (10 ^ Z.of_nat 1) with 10 in Hn.
    assert (n / 10 = 0) by (apply Z.div_small; lia). lia.
  - apply Z.eqb_neq in Hq. apply IH.
    assert (0 <= n / 10) by (apply Z.div_pos; lia).
    split; [lia|].
    apply Z.div_lt_upper_bound; [lia|].
    replace (Z.of_nat (S (S fuel))) with (Z.succ (Z.of_nat (S fuel))) in Hn by lia.
    rewrite Z.pow_succ_r in Hn by lia. lia.
Qed.

(** A decimal rendering has no leading zero: it starts with [0] only when
    it is ["0"]. *)
Lemma decimal_leading_zero n ds :
  0 <= n -> strconv.decimal n = "0"%char :: ds -> ds = [].
Proof.
  intros Hn E. destruct (Z.eq_dec n 0) as [->|Hnz].
  - vm_compute in E. congruence.
  - unfold strconv.decimal in E.
    destruct (digits_head (Z.to_nat (Z.log2 n)) n []) as (d & ds' & E' & Hd).
    { split; [lia|].
      pose proof (Z.log2_spec n ltac:(lia)) as [_ Hs].
      pose proof (Z.log2_nonneg n).
      replace (Z.of_nat (S (Z.to_nat (Z.log2 n)))) with (Z.succ (Z.log2 n)) by lia.
      eapply Z.lt_le_trans; [exact Hs|].
      apply Z.pow_le_mono_l. lia. }
    rewrite E' in E.
    assert (Eh : code (chr (48 + d)) = code "0"%char) by (f_equal; congruence).
    rewrite code_chr in Eh by lia.
    change (code "0") with 48 in Eh. lia.
Qed.

Lemma parseUintLoop_value ds : forall a,
  forallb isDigit ds = true -> 0 <= a -> value ds a <= max_uint64 ->
  strconv.parseUintLoop ds a = (value ds a, None).
Proof.
  induction ds as [|c ds IH]; intros a Hds Ha Hmax.
  - reflexivity.
  - simpl in Hds. apply andb_true_iff in Hds as [Hc Hds].
    pose proof Hc as Hc'. unfold isDigit in Hc'.
    apply andb_true_iff in Hc' as [H1 H2]. apply Z.leb_le in H1, H2.
    change (value (c :: ds) a) with (value ds (a * 10 + (code c - 48))) in *.
    pose proof (value_ge ds (a * 10 + (code c - 48)) Hds ltac:(lia)) as Hge.
    unfold max_uint64 in *.
    cbn [strconv.parseUintLoop]. fold (isDigit c). rewrite Hc. cbv zeta.
    assert (Hcut : (a >=? (2 ^ 64 - 1) / 10 + 1) = false).
    { rewrite Z.geb_leb. apply Z.leb_gt.
      change ((2 ^ 64 - 1) / 10 + 1) with 1844674407370955162. lia. }
    unfold max_uint64. rewrite Hcut.
    unfold wrap_uint64. rewrite (Z.mod_small (a * 10)) by lia.
    rewrite Z.mod_small by lia.
    assert (H3 : (a * 10 + (code c - 48) <? a * 10) = false) by (apply Z.ltb_ge; lia).
    assert (H4 : (a * 10 + (code c - 48) >? 2 ^ 64 - 1) = false).
    { rewrite Z.gtb_ltb. apply Z.ltb_ge. lia. }
    rewrite H3, H4. simpl orb. cbv iota. apply IH; auto; lia.
Qed.

Lemma wrap_int_small z : min_int <= z <= max_int -> wrap_int z = z.
Proof.
  unfold min_int, max_int, wrap_int. intros Hz.
  rewrite Z.mod_small; lia.
Qed.

Lemma wrap_uint64_small z : 0 <= z <= max_uint64 -> wrap_uint64 z = z.
Proof.
  unfold max_uint64, wrap_uint64. intros Hz. apply Z.mod_small. lia.
Qed.

Lemma ParseUint_decimal n :
  0 <= n <= max_uint64 -> strconv.ParseUint (strconv.decimal n) = (n, None).
Proof.
  intros Hn. destruct (decimal_spec n) as (Hne & Hd & Hv); [lia|].
  unfold strconv.ParseUint.
  destruct (strconv.decimal n) as [|c ds] eqn:E; [congruence|].
  rewrite parseUintLoop_value; rewrite ?Hv; auto; lia.
Qed.

Lemma isDigit_code c : isDigit c = true -> 48 <= code c <= 57.
Proof.
  unfold isDigit. intros H. apply andb_true_iff in H as [H1 H2].
  apply Z.leb_le in H1, H2. lia.
Qed.

Lemma eqb_code c d : Ascii.eqb c d = (code c =? code d).
Proof.
  destruct (Ascii.eqb_spec c d) as [->|Hne].
  - symmetry. apply Z.eqb_refl.
  - symmetry. apply Z.eqb_neq. intros H. apply Hne.
    rewrite <- (chr_code c), <- (chr_code d), H. reflexivity.
Qed.

Lemma ParseInt_Itoa n :
  min_int <= n <= max_int -> strconv.ParseInt (strconv.Itoa n) = (n, None).
Proof.
  unfold min_int, max_int. intros Hn. unfold strconv.Itoa.
  destruct (n <? 0) eqn:Hneg.
  - apply Z.ltb_lt in Hneg.
    cbn [strconv.ParseInt]. change (Ascii.eqb "-" "-") with true.
    change (Ascii.eqb "-" "+") with false. cbn [orb].
    rewrite ParseUint_decimal by (unfold max_uint64; lia).
    cbn [negb andb].
    replace (- n >? 2 ^ 63) with false by (symmetry; rewrite Z.gtb_ltb; apply Z.ltb_ge; lia).
    f_equal. destruct (Z.eq_dec n (- 2 ^ 63)) as [->|Hne].
    + reflexivity.
    + rewrite (wrap_int_small (- n)) by (unfold min_int, max_int; lia).
      rewrite Z.opp_involutive. apply wrap_int_small. unfold min_int, max_int; lia.
  - apply Z.ltb_ge in Hneg.
    destruct (decimal_spec n Hneg) as (Hne & Hd & Hv).
    pose proof (ParseUint_decimal n ltac:(unfold max_uint64; lia)) as HP.
    destruct (strconv.decimal n) as [|c ds] eqn:E; [congruence|].
    cbn [forallb] in Hd. apply andb_true_iff in Hd as [Hc _].
    apply isDigit_code in Hc.
    cbn [strconv.ParseInt]. rewrite !eqb_code.
    change (code "-") with 45. change (code "+") with 43.
    replace (code c =? 45) with false by (symmetry; apply Z.eqb_neq; lia).
    replace (code c =? 43) with false by (symmetry; apply Z.eqb_neq; lia).
    cbn [orb]. rewrite HP. cbn [negb andb].
    replace (n >=? 2 ^ 63) with false by (symmetry; rewrite Z.geb_leb; apply Z.leb_gt; lia).
    f_equal. apply wrap_int_small. unfold min_int, max_int; lia.
Qed.

(** ** The runes of an ASCII string *)


Lemma decode_ascii p : forall fuel,
  forallb isASCII p = true -> (List.length p <= fuel)%nat ->
  utf8.decode fuel p = map code p.
Proof.
  induction p as [|c p IH]; intros fuel Hp Hf.
  - destruct fuel; reflexivity.
  - destruct fuel as [|fuel]; [simpl in Hf; lia|].
    cbn [forallb] in Hp. apply andb_true_iff in Hp as [Hc Hp].
    unfold isASCII in Hc.
    cbn [utf8.decode utf8.DecodeRune]. rewrite Hc.
    cbn [skipn map]. f_equal. apply IH; auto. simpl in Hf. lia.
Qed.

Lemma runes_ascii p : forallb isASCII p = true -> utf8.runes p = map code p.
Proof.
  intros Hp. unfold utf8.runes. apply decode_ascii; auto.
Qed.

Lemma isDigit_isASCII ds : forallb isDigit ds = true -> forallb isASCII ds = true.
Proof.
  induction ds as [|c ds IH]; cbn [forallb]; intros H; auto.
  apply andb_true_iff in H as [Hc H]. apply isDigit_code in Hc.
  rewrite IH by auto. unfold isASCII.
  replace (code c <? 128) with true by (symmetry; apply Z.ltb_lt; lia).
  reflexivity.
Qed.

(** ** Scanning a decimal number *)

Section Digit.
Variable r : utf8.rune.
Hypothesis Hr : 43 <= r <= 57.

(** A digit or a sign is not a space, a newline or a percent sign. *)
Lemma isSpace_digit : fmt.isSpace r = false.
Proof. unfold fmt.isSpace. cmp. reflexivity. Qed.

Lemma isNewline_digit : fmt.isNewline r = false.
Proof. unfold fmt.isNewline. cmp. reflexivity. Qed.

Lemma isPercent_digit : fmt.isPercent r = false.
Proof. unfold fmt.isPercent. cmp. reflexivity. Qed.

Lemma SkipSpace_digit rest : fmt.SkipSpace (r :: rest) = fmt.Got tt (r :: rest).
Proof.
  cbn [fmt.SkipSpace]. rewrite isSpace_digit, isNewline_digit.
  cmp. reflexivity.
Qed.

Lemma skipBlanks_digit rest : fmt.skipBlanks (r :: rest) = (Some r, rest).
Proof.
  cbn [fmt.skipBlanks]. rewrite isSpace_digit. reflexivity.
Qed.

(** One space of the input, then the number: what a space of the format
    followed by a verb consumes. *)
Lemma matchTrailingSpace_digit rest :
  fmt.matchTrailingSpace 0 (32 :: r :: rest) = fmt.Got tt (r :: rest).
Proof.
  unfold fmt.matchTrailingSpace.
  change (fmt.isSpace 32) with true. change (fmt.isNewline 32) with false.
  cbn [negb fmt.skipBlanks andb].
  change (fmt.isSpace 32) with true. change (fmt.isNewline 32) with false.
  cbn [negb andb]. rewrite isSpace_digit. reflexivity.
Qed.
End Digit.

Lemma decimalDigit_code c : isDigit c = true -> fmt.decimalDigit (code c) = true.
Proof.
  intros H. apply isDigit_code in H. unfold fmt.decimalDigit. cmp. reflexivity.
Qed.

Lemma acceptAll_digits ds : forall r rest,
  forallb isDigit ds = true -> fmt.decimalDigit r = false ->
  fmt.acceptAll fmt.decimalDigit (map code ds ++ r :: rest) = (map code ds, r :: rest).
Proof.
  induction ds as [|c ds IH]; intros r rest Hds Hr.
  - cbn [map app fmt.acceptAll]. rewrite Hr. reflexivity.
  - cbn [forallb] in Hds. apply andb_true_iff in Hds as [Hc Hds].
    cbn [map app fmt.acceptAll]. rewrite decimalDigit_code by auto.
    rewrite IH by auto. reflexivity.
Qed.

Lemma token_code ds : fmt.token (map code ds) = ds.
Proof.
  unfold fmt.token. rewrite map_map. rewrite <- (map_id ds) at 2.
  apply map_ext. intros c. apply chr_code.
Qed.

Lemma scanNumber_digits buf ds r rest :
  ds <> [] -> forallb isDigit ds = true -> fmt.decimalDigit r = false ->
  fmt.scanNumber buf (map code ds ++ r :: rest) =
  fmt.Got (buf ++ map code ds) (r :: rest).
Proof.
  intros Hne Hds Hr. destruct ds as [|c ds]; [congruence|].
  cbn [forallb] in Hds. apply andb_true_iff in Hds as [Hc Hds].
  cbn [map app]. unfold fmt.scanNumber. rewrite decimalDigit_code by auto.
  rewrite acceptAll_digits by auto. reflexivity.
Qed.

(** [%d] into a [*uint64] reads back what [utoa] printed. *)
Lemma scanUint_utoa id r rest :
  0 <= id <= max_uint64 -> fmt.decimalDigit r = false ->
  fmt.scanUint (map code (utoa id) ++ r :: rest) = fmt.Got id (r :: rest).
Proof.
  intros Hid Hr. unfold utoa, strconv.FormatUint.
  destruct (decimal_spec id) as (Hne & Hd & Hv); [lia|].
  pose proof (ParseUint_decimal id Hid) as HP.
  pose proof (scanNumber_digits [] _ r rest Hne Hd Hr) as HS.
  destruct (strconv.decimal id) as [|c ds] eqn:E; [congruence|].
  pose proof Hd as Hd'. cbn [forallb] in Hd'. apply andb_true_iff in Hd' as [Hc _].
  apply isDigit_code in Hc.
  unfold fmt.scanUint. cbn [map app] in *.
  rewrite SkipSpace_digit by lia. unfold utf8.rune in *. rewrite HS. cbn [app].
  change (code c :: map code ds) with (map code (c :: ds)).
  rewrite token_code, HP. reflexivity.
Qed.

Lemma Itoa_digits n :
  0 <= n -> strconv.Itoa n = strconv.decimal n.
Proof.
  intros Hn. unfold strconv.Itoa. cmp. reflexivity.
Qed.

Lemma Itoa_neg n :
  n < 0 -> strconv.Itoa n = "-"%char :: strconv.decimal (- n).
Proof.
  intros Hn. unfold strconv.Itoa. cmp. reflexivity.
Qed.

(** [%d] into a [*int] reads back what [itoa] printed, sign included. *)
Lemma scanInt_itoa n r rest :
  min_int <= n <= max_int -> fmt.decimalDigit r = false ->
  fmt.scanInt (map code (itoa n) ++ r :: rest) = fmt.Got n (r :: rest).
Proof.
  intros Hn Hr. pose proof (ParseInt_Itoa n Hn) as HP. unfold itoa.
  destruct (Z_lt_dec n 0) as [Hneg|Hpos].
  - rewrite Itoa_neg in * by auto.
    destruct (decimal_spec (- n)) as (Hne & Hd & Hv); [lia|].
    pose proof (scanNumber_digits [45] _ r rest Hne Hd Hr) as HS.
    cbn [map app]. change (code "-") with 45.
    unfold fmt.scanInt. rewrite SkipSpace_digit by lia.
    change (fmt.isSign 45) with true. cbv iota beta.
    unfold utf8.rune in *. rewrite HS. cbn [app].
    change (45 :: map code (strconv.decimal (- n)))
      with (map code ("-"%char :: strconv.decimal (- n))).
    rewrite token_code, HP. reflexivity.
  - rewrite Itoa_digits in * by lia.
    destruct (decimal_spec n) as (Hne & Hd & Hv); [lia|].
    pose proof (scanNumber_digits [] _ r rest Hne Hd Hr) as HS.
    destruct (strconv.decimal n) as [|c ds] eqn:E; [congruence|].
    pose proof Hd as Hd'. cbn [forallb] in Hd'. apply andb_true_iff in Hd' as [Hc _].
    apply isDigit_code in Hc.
    unfold fmt.scanInt. cbn [map app] in *.
    rewrite SkipSpace_digit by lia.
    replace (fmt.isSign (code c)) with false by (unfold fmt.isSign; cmp; reflexivity).
    cbv iota beta. unfold utf8.rune in *. rewrite HS. cbn [app].
    change (code c :: map code ds) with (map code (c :: ds)).
    rewrite token_code, HP. reflexivity.
Qed.

(** ** Scanning the response formats *)


Lemma advance_plain fuel fmtc format i inp :
  plain fmtc = true ->
  fmt.advance (S fuel) (fmtc :: format) i (fmtc :: inp) =
  fmt.advance fuel format (i + 1) inp.
Proof.
  unfold plain. intros H. apply andb_true_iff in H as [H1 H2].
  apply negb_true_iff in H1, H2.
  cbn [fmt.advance]. rewrite H1, H2, Z.eqb_refl. reflexivity.
Qed.

(** The literal word of a format, a space and a verb, against the same
    word, one space and the start of a number. *)
Lemma advance_word w : forall fuel i tail r inp,
  forallb plain w = true -> (List.length w + 2 <= fuel)%nat -> 43 <= r <= 57 ->
  fmt.advance fuel (w ++ 32 :: 37 :: 100 :: tail) i (w ++ 32 :: r :: inp) =
  fmt.Adv (i + Z.of_nat (List.length w) + 1) (37 :: 100 :: tail) (r :: inp).
Proof.
  induction w as [|c w IH]; intros fuel i tail r inp Hw Hf Hr.
  - destruct fuel as [|[|fuel]]; [simpl in Hf; lia ..|].
    cbn [app fmt.advance List.length]. change (fmt.isSpace 32) with true.
    cbv iota. cbn [fmt.spaceRun]. change (fmt.isSpace 32) with true.
    change (fmt.isNewline 32) with false. change (fmt.isSpace 37) with false.
    cbv iota. cbn [fmt.matchNewlines].
    rewrite matchTrailingSpace_digit by lia.
    change (fmt.isPercent 37) with true. change (fmt.isPercent 100) with false.
    cbv iota. change (fmt.isSpace 37) with false. cbv iota.
    f_equal. simpl. lia.
  - destruct fuel as [|fuel]; [simpl in Hf; lia|].
    cbn [forallb] in Hw. apply andb_true_iff in Hw as [Hc Hw].
    cbn [app]. rewrite advance_plain by auto.
    rewrite IH by (auto; simpl in Hf; lia).
    f_equal. cbn [List.length]. lia.
Qed.

(** The scanner's loop at a verb [%d] for a [*uint64] operand. *)
Lemma doScanf_uint w fuel tail a stored id r rest :
  forallb plain w = true -> 0 <= id <= max_uint64 -> fmt.decimalDigit r = false ->
  fmt.doScanf (S (S fuel)) (w ++ 32 :: 37 :: 100 :: tail) (fmt.Uint64Ptr :: a)
    stored (w ++ 32 :: map code (utoa id) ++ r :: rest) =
  fmt.doScanf fuel tail a (stored ++ [id]) (r :: rest).
Proof.
  intros Hw Hid Hr.
  pose proof (scanUint_utoa id r rest Hid Hr) as HS.
  destruct (decimal_spec id) as (Hne & Hd & _); [lia|].
  unfold utoa, strconv.FormatUint in *.
  destruct (strconv.decimal id) as [|c ds]; [congruence|].
  cbn [forallb] in Hd. apply andb_true_iff in Hd as [Hc _].
  apply isDigit_code in Hc. cbn [map app] in *.
  assert (E1 : fmt.doScanf (S (S fuel)) (w ++ 32 :: 37 :: 100 :: tail)
                 (fmt.Uint64Ptr :: a) stored
                 (w ++ 32 :: code c :: map code ds ++ r :: rest) =
               fmt.doScanf (S fuel) (37 :: 100 :: tail) (fmt.Uint64Ptr :: a)
                 stored (code c :: map code ds ++ r :: rest)).
  { assert (Hlen : le (List.length w + 2)%nat
                     (List.length (w ++ 32 :: 37 :: 100 :: tail)))
      by (rewrite length_app; cbn [List.length]; lia).
    pose proof (advance_word w _ 0 tail (code c) (map code ds ++ r :: rest)
                  Hw Hlen ltac:(lia)) as HA.
    assert (Hpos : (0 + Z.of_nat (List.length w) + 1 >? 0) = true)
      by (rewrite Z.gtb_ltb; apply Z.ltb_lt; lia).
    destruct w as [|c0 w']; cbn [app] in *; cbn [fmt.doScanf];
      unfold utf8.rune in *; rewrite HA, Hpos; reflexivity. }
  rewrite E1. cbn [fmt.doScanf fmt.advance List.length].
  change (fmt.isSpace 37) with false. change (fmt.isPercent 37) with true.
  change (fmt.isPercent 100) with false. cbv iota.
  change (0 >? 0) with false. change (100 =? 99) with false. cbv iota.
  cbn [negb]. rewrite SkipSpace_digit by lia.
  unfold fmt.scanOne. change (100 =? 100) with true. cbv iota.
  unfold utf8.rune in *. rewrite HS. reflexivity.
Qed.

(** The same for an [*int] operand. *)
Lemma doScanf_int w fuel tail a stored n r rest :
  forallb plain w = true -> min_int <= n <= max_int -> fmt.decimalDigit r = false ->
  fmt.doScanf (S (S fuel)) (w ++ 32 :: 37 :: 100 :: tail) (fmt.IntPtr :: a)
    stored (w ++ 32 :: map code (itoa n) ++ r :: rest) =
  fmt.doScanf fuel tail a (stored ++ [n]) (r :: rest).
Proof.
  intros Hw Hn Hr.
  pose proof (scanInt_itoa n r rest Hn Hr) as HS.
  assert (Hhd : exists c cs, itoa n = c :: cs /\ 43 <= code c <= 57).
  { unfold itoa. destruct (Z_lt_dec n 0).
    - rewrite Itoa_neg by auto. eexists _, _. split; [reflexivity|].
      change (code "-") with 45. lia.
    - rewrite Itoa_digits by lia.
      destruct (decimal_spec n) as (Hne & Hd & _); [lia|].
      destruct (strconv.decimal n) as [|c ds]; [congruence|].
      cbn [forallb] in Hd. apply andb_true_iff in Hd as [Hc _].
      apply isDigit_code in Hc. eexists _, _. split; [reflexivity|lia]. }
  destruct Hhd as (c & ds & E & Hc). rewrite E in *. cbn [map app] in *.
  assert (E1 : fmt.doScanf (S (S fuel)) (w ++ 32 :: 37 :: 100 :: tail)
                 (fmt.IntPtr :: a) stored
                 (w ++ 32 :: code c :: map code ds ++ r :: rest) =
               fmt.doScanf (S fuel) (37 :: 100 :: tail) (fmt.IntPtr :: a)
                 stored (code c :: map code ds ++ r :: rest)).
  { assert (Hlen : le (List.length w + 2)%nat
                     (List.length (w ++ 32 :: 37 :: 100 :: tail)))
      by (rewrite length_app; cbn [List.length]; lia).
    pose proof (advance_word w _ 0 tail (code c) (map code ds ++ r :: rest)
                  Hw Hlen ltac:(lia)) as HA.
    assert (Hpos : (0 + Z.of_nat (List.length w) + 1 >? 0) = true)
      by (rewrite Z.gtb_ltb; apply Z.ltb_lt; lia).
    destruct w as [|c0 w']; cbn [app] in *; cbn [fmt.doScanf];
      unfold utf8.rune in *; rewrite HA, Hpos; reflexivity. }
  rewrite E1. cbn [fmt.doScanf fmt.advance List.length].
  change (fmt.isSpace 37) with false. change (fmt.isPercent 37) with true.
  change (fmt.isPercent 100) with false. cbv iota.
  change (0 >? 0) with false. change (100 =? 99) with false. cbv iota.
  cbn [negb]. rewrite SkipSpace_digit by lia.
  unfold fmt.scanOne. change (100 =? 100) with true. cbv iota.
  unfold utf8.rune in *. rewrite HS. reflexivity.
Qed.

(** The end of every format: the newline, against the line's terminator. *)
Lemma doScanf_crlf fuel stored :
  fmt.doScanf (S (S fuel)) [13; 10] [] stored [13; 10] = (stored, None).
Proof.
  reflexivity.
Qed.

Lemma decimal_ascii n : 0 <= n -> forallb isASCII (strconv.decimal n) = true.
Proof.
  intros Hn. apply isDigit_isASCII.
  destruct (decimal_spec n Hn) as (_ & Hd & _). exact Hd.
Qed.

Lemma utoa_ascii id : 0 <= id -> forallb isASCII (utoa id) = true.
Proof. apply decimal_ascii. Qed.

Lemma itoa_ascii n : forallb isASCII (itoa n) = true.
Proof.
  unfold itoa. destruct (Z_lt_dec n 0).
  - rewrite Itoa_neg by auto. cbn [forallb].
    rewrite decimal_ascii by lia. reflexivity.
  - rewrite Itoa_digits by lia. apply decimal_ascii. lia.
Qed.

(** A response [<word> <id>\r\n] scanned with the format [<word> %d\r\n]. *)
Lemma Sscanf_word_uint (word : bytes) (id : Z) :
  forallb isASCII word = true -> forallb plain (map code word) = true ->
  0 <= id <= max_uint64 ->
  fmt.Sscanf (word ++ B " " ++ utoa id ++ CRLF) (word ++ B " %d" ++ CRLF)
    [fmt.Uint64Ptr] = ([id], None).
Proof.
  intros Ha Hp Hid. unfold fmt.Sscanf.
  rewrite !runes_ascii
    by (rewrite ?forallb_app, ?Ha, ?utoa_ascii by lia; reflexivity).
  rewrite length_app. change (List.length (B " %d" ++ CRLF)) with 5%nat.
  rewrite Nat.add_comm. cbn [Nat.add]. rewrite !map_app.
  change (map code (B " %d")) with [32; 37; 100].
  change (map code (B " ")) with [32]. change (map code CRLF) with [13; 10].
  cbn [app].
  rewrite doScanf_uint by (auto; reflexivity).
  apply doScanf_crlf.
Qed.

Lemma doScanf_int_next fuel tail a stored n r rest :
  min_int <= n <= max_int -> fmt.decimalDigit r = false ->
  fmt.doScanf (S (S fuel)) (32 :: 37 :: 100 :: tail) (fmt.IntPtr :: a)
    stored (32 :: map code (itoa n) ++ r :: rest) =
  fmt.doScanf fuel tail a (stored ++ [n]) (r :: rest).
Proof.
  intros Hn Hr. apply (doScanf_int []); auto.
Qed.

(** A response [<word> <id> <n>\r\n] scanned with [<word> %d %d\r\n]. *)
Lemma Sscanf_word_uint_int (word : bytes) (id n : Z) :
  forallb isASCII word = true -> forallb plain (map code word) = true ->
  0 <= id <= max_uint64 -> min_int <= n <= max_int ->
  fmt.Sscanf (word ++ B " " ++ utoa id ++ B " " ++ itoa n ++ CRLF)
    (word ++ B " %d %d" ++ CRLF) [fmt.Uint64Ptr; fmt.IntPtr] = ([id; n], None).
Proof.
  intros Ha Hp Hid Hn. unfold fmt.Sscanf.
  rewrite !runes_ascii
    by (rewrite ?forallb_app, ?Ha, ?utoa_ascii, ?itoa_ascii by lia; reflexivity).
  rewrite length_app. change (List.length (B " %d %d" ++ CRLF)) with 8%nat.
  rewrite Nat.add_comm. cbn [Nat.add]. rewrite !map_app.
  change (map code (B " %d %d")) with [32; 37; 100; 32; 37; 100].
  change (map code (B " ")) with [32]. change (map code CRLF) with [13; 10].
  cbn [app].
  rewrite doScanf_uint by (auto; reflexivity).
  rewrite doScanf_int_next by (auto; reflexivity).
  apply doScanf_crlf.
Qed.

(** ** The reliable write loop *)

Lemma setConn_same s c : conn (self s) = Some c -> setConn s c = s.
Proof.
  destruct s as [[cn ad] w]. simpl. intros ->. reflexivity.
Qed.

Lemma setConn_setConn s c c' : setConn (setConn s c) c' = setConn s c'.
Proof. reflexivity. Qed.

Lemma conn_setConn s c : conn (self (setConn s c)) = Some c.
Proof. reflexivity. Qed.

Lemma len_nil_inv (p : bytes) : len p <= 0 -> p = [].
Proof.
  destruct p; [reflexivity|]. unfold len. simpl. lia.
Qed.

Lemma len_firstn_min n (p : bytes) :
  len (firstn (Nat.min n (List.length p)) p) = Z.of_nat (Nat.min n (List.length p)).
Proof.
  unfold len. rewrite length_firstn. lia.
Qed.

Lemma len_skipn n (p : bytes) :
  len (skipn (Nat.min n (List.length p)) p) =
  len p - Z.of_nat (Nat.min n (List.length p)).
Proof.
  unfold len. rewrite length_skipn. lia.
Qed.

(** One turn of the loop when bytes are left to write. *)
Lemma sendLoop_S fuel L toWrite total :
  total < L ->
  sendLoop (S fuel) L toWrite total =
  ('(n, err) <- connWrite toWrite ;;
   match err with
   | Some e =>
       if negb (isTemporary e) then ret (total, Some e)
       else sendLoop fuel L (skipn (Z.to_nat n) toWrite) (total + n)
   | None => sendLoop fuel L (skipn (Z.to_nat n) toWrite) (total + n)
   end).
Proof.
  intros H. cbn [sendLoop]. cmp. reflexivity.
Qed.

Lemma sendLoop_done fuel L toWrite total :
  L <= total -> sendLoop fuel L toWrite total = ret (total, None).
Proof.
  intros H. destruct fuel; cbn [sendLoop]; cmp; reflexivity.
Qed.

(** When the script carries the bytes, the loop puts them all on the wire
    and reports success. *)
Lemma sendLoop_carries script : forall fuel c s toWrite total,
  conn (self s) = Some c -> net.closed c = false -> net.script c = script ->
  (List.length script < fuel)%nat ->
  carries script (List.length toWrite) = true ->
  sendLoop fuel (total + len toWrite) toWrite total s =
  Returns (total + len toWrite, None)
    (setConn s {| net.script := remaining script (List.length toWrite);
                  net.wire := net.wire c ++ toWrite;
                  net.incoming := net.incoming c;
                  net.readEnd := net.readEnd c;
                  net.closeErr := net.closeErr c;
                  net.closed := false |}).
Proof.
  assert (Hnil : forall fuel c s total script,
    conn (self s) = Some c -> net.closed c = false -> net.script c = script ->
    sendLoop fuel (total + len []) [] total s =
    Returns (total + len [], None)
      (setConn s {| net.script := script; net.wire := net.wire c ++ [];
                    net.incoming := net.incoming c; net.readEnd := net.readEnd c;
                    net.closeErr := net.closeErr c; net.closed := false |})).
  { intros fuel c s total scr Hc Hcl Hs.
    change (len []) with 0. rewrite Z.add_0_r.
    rewrite sendLoop_done by lia.
    rewrite app_nil_r. unfold ret.
    rewrite <- (setConn_same s c Hc) at 1. do 2 f_equal.
    destruct c; simpl in *; subst; reflexivity. }
  induction script as [|[k err] script IH]; intros fuel c s toWrite total Hc Hcl Hs Hf Hcar.
  - cbn [carries] in Hcar. apply Nat.eqb_eq in Hcar.
    destruct toWrite; [|discriminate]. cbn [remaining]. apply Hnil; auto.
  - destruct toWrite as [|b toWrite'] eqn:Ew.
    + cbn [remaining List.length Nat.eqb]. apply Hnil; auto.
    + rewrite <- Ew in *.
      assert (Hlen : List.length toWrite <> 0%nat) by (rewrite Ew; discriminate).
      cbn [carries remaining] in *.
      apply Nat.eqb_neq in Hlen. rewrite Hlen in *.
      destruct (fatal err) eqn:Hfatal; [discriminate|].
      destruct fuel as [|fuel]; [simpl in Hf; lia|].
      assert (Hpos : 0 < len toWrite)
        by (unfold len; apply Nat.eqb_neq in Hlen; lia).
      rewrite sendLoop_S by lia.
      unfold bind at 1. unfold connWrite. rewrite Hc. unfold net.Write.
      rewrite Hcl, Hs.
      set (n := Nat.min k (List.length toWrite)) in *.
      set (c1 := {| net.script := script;
                    net.wire := net.wire c ++ firstn n toWrite;
                    net.incoming := net.incoming c; net.readEnd := net.readEnd c;
                    net.closeErr := net.closeErr c; net.closed := false |}).
      assert (Hrec :
        sendLoop fuel (total + len toWrite) (skipn (Z.to_nat (Z.of_nat n)) toWrite)
          (total + Z.of_nat n) (setConn s c1) =
        Returns (total + len toWrite, None)
          (setConn s {| net.script := remaining script (List.length toWrite - n);
                        net.wire := net.wire c ++ toWrite;
                        net.incoming := net.incoming c;
                        net.readEnd := net.readEnd c;
                        net.closeErr := net.closeErr c;
                        net.closed := false |})).
      { rewrite Nat2Z.id.
        pose proof (IH fuel c1 (setConn s c1) (skipn n toWrite) (total + Z.of_nat n)
                      eq_refl eq_refl eq_refl) as HI.
        rewrite length_skipn in HI.
        specialize (HI ltac:(simpl in Hf; lia) Hcar).
        replace (total + Z.of_nat n + len (skipn n toWrite))
          with (total + len toWrite) in HI
          by (unfold n; rewrite len_skipn; lia).
        rewrite HI. f_equal. rewrite setConn_setConn. f_equal.
        subst c1. cbn [net.wire net.incoming net.readEnd net.closeErr].
        rewrite <- app_assoc, firstn_skipn. reflexivity. }
      destruct err as [e|]; cbv iota beta.
      * cbn [fatal] in Hfatal. rewrite Hfatal. exact Hrec.
      * exact Hrec.
Qed.

(** [sendAll] on a connection that carries the bytes. *)
Lemma sendAll_carries s c data :
  conn (self s) = Some c -> net.closed c = false ->
  carries (net.script c) (List.length data) = true ->
  sendAll data s =
  Returns (len data, None)
    (setConn s {| net.script := remaining (net.script c) (List.length data);
                  net.wire := net.wire c ++ data;
                  net.incoming := net.incoming c;
                  net.readEnd := net.readEnd c;
                  net.closeErr := net.closeErr c;
                  net.closed := false |}).
Proof.
  intros Hc Hcl Hcar. unfold sendAll. rewrite Hc.
  pose proof (sendLoop_carries (net.script c) (S (List.length (net.script c)))
                c s data 0 Hc Hcl eq_refl ltac:(lia) Hcar) as H.
  cbn [Z.add] in H. exact H.
Qed.

Lemma untouched_refl c : untouched c c.
Proof. repeat split. Qed.

(** What the loop does on any script: it never panics; when it returns,
    [done] are the bytes taken by the attempts before the last one and
    [part] the bytes taken by an attempt that failed for good; it blocks
    only when the script runs out. *)
Lemma sendLoop_spec fuel : forall s c toWrite total,
  conn (self s) = Some c -> (List.length (net.script c) < fuel)%nat ->
  match sendLoop fuel (total + len toWrite) toWrite total s with
  | Returns (n, err) s' =>
      exists c' done part,
        s' = setConn s c' /\ untouched c c' /\
        net.wire c' = net.wire c ++ done ++ part /\
        n = total + len done /\
        match err with
        | None => part = [] /\ done = toWrite
        | Some e => isTemporary e = false /\ exists rest, toWrite = done ++ part ++ rest
        end
  | Panics _ _ => False
  | Blocks _ =>
      net.closed c = false /\ settles (net.script c) (List.length toWrite) = false
  end.
Proof.
  induction fuel as [|fuel IH]; intros s c toWrite total Hc Hf; [lia|].
  destruct toWrite as [|b toWrite'] eqn:Ew.
  - change (len []) with 0. rewrite Z.add_0_r, sendLoop_done by lia.
    unfold ret. exists c, [], []. rewrite setConn_same by auto.
    rewrite !app_nil_r. change (len []) with 0. repeat split. lia.
  - rewrite <- Ew.
    assert (Hpos : 0 < len toWrite) by (rewrite Ew; unfold len; simpl; lia).
    rewrite sendLoop_S by lia.
    unfold bind at 1. unfold connWrite. rewrite Hc. unfold net.Write.
    destruct (net.closed c) eqn:Hcl.
    + cbv iota beta. cbn [isTemporary negb]. unfold ret.
      exists c, [], []. rewrite !app_nil_r. change (len []) with 0.
      repeat split; auto; try lia. exists toWrite. reflexivity.
    + destruct (net.script c) as [|[k err] script'] eqn:Hs.
      * split; [reflexivity|]. rewrite Ew. reflexivity.
      * set (n := Nat.min k (List.length toWrite)).
        set (c1 := {| net.script := script';
                      net.wire := net.wire c ++ firstn n toWrite;
                      net.incoming := net.incoming c;
                      net.readEnd := net.readEnd c;
                      net.closeErr := net.closeErr c; net.closed := false |}).
        assert (Hu : untouched c c1) by (repeat split; auto).
        assert (Hrec :
          match sendLoop fuel (total + len toWrite)
                  (skipn (Z.to_nat (Z.of_nat n)) toWrite) (total + Z.of_nat n)
                  (setConn s c1) with
          | Returns (n0, err0) s' =>
              exists c' done part,
                s' = setConn s c' /\ untouched c c' /\
                net.wire c' = net.wire c ++ done ++ part /\
                n0 = total + len done /\
                match err0 with
                | None => part = [] /\ done = toWrite
                | Some e => isTemporary e = false /\
                            exists rest, toWrite = done ++ part ++ rest
                end
          | Panics _ _ => False
          | Blocks _ =>
              false = false /\
              settles script' (List.length toWrite - n) = false
          end).
        { rewrite Nat2Z.id.
          pose proof (IH (setConn s c1) c1 (skipn n toWrite) (total + Z.of_nat n)
                        eq_refl ltac:(simpl in *; lia)) as HI.
          replace (total + Z.of_nat n + len (skipn n toWrite))
            with (total + len toWrite) in HI
            by (unfold n; rewrite len_skipn; lia).
          destruct (sendLoop fuel (total + len toWrite) (skipn n toWrite)
                      (total + Z.of_nat n) (setConn s c1)) as [[n0 err0] s'|msg s'|s'].
          - destruct HI as (c' & done & part & Hs' & Hu' & Hw & Hn & Herr).
            exists c', (firstn n toWrite ++ done), part.
            split; [rewrite Hs'; reflexivity|].
            split; [destruct Hu' as (?&?&?&?); repeat split; simpl in *; congruence|].
            split; [rewrite Hw; simpl; rewrite <- !app_assoc; reflexivity|].
            split; [rewrite len_app; unfold n at 1; rewrite len_firstn_min; fold n; lia|].
            destruct err0 as [e|].
            + destruct Herr as [Ht [rest Hr]]. split; [exact Ht|].
              exists rest. rewrite <- app_assoc, <- Hr, firstn_skipn. reflexivity.
            + destruct Herr as [-> ->]. split; [reflexivity|].
              apply firstn_skipn.
          - exact HI.
          - destruct HI as [_ HI]. split; [reflexivity|].
            rewrite length_skipn in HI. exact HI. }
        assert (Hsettle : fatal err = false ->
                  settles ((k, err) :: script') (List.length toWrite) =
                  settles script' (List.length toWrite - n)).
        { intros Hfat. cbn [settles]. rewrite Hfat.
          replace (Nat.eqb (List.length toWrite) 0) with false
            by (symmetry; apply Nat.eqb_neq; unfold len in Hpos; lia).
          reflexivity. }
        destruct err as [e|]; cbv iota beta.
        -- destruct (negb (isTemporary e)) eqn:Hfat.
           ++ unfold ret. exists c1, [], (firstn n toWrite).
              change (len []) with 0. apply negb_true_iff in Hfat.
              repeat split; auto; try lia.
              exists (skipn n toWrite). symmetry. apply firstn_skipn.
           ++ rewrite Hsettle by exact Hfat.
              destruct (sendLoop fuel (total + len toWrite)
                          (skipn (Z.to_nat (Z.of_nat n)) toWrite)
                          (total + Z.of_nat n) (setConn s c1)); exact Hrec.
        -- rewrite Hsettle by reflexivity.
           destruct (sendLoop fuel (total + len toWrite)
                       (skipn (Z.to_nat (Z.of_nat n)) toWrite)
                       (total + Z.of_nat n) (setConn s c1)); exact Hrec.
Qed.

Lemma sendAll_spec data s :
  match sendAll data s with
  | Returns (n, err) s' =>
      match conn (self s) with
      | None => n = 0 /\ err = Some errNoConnection /\ s' = s
      | Some c =>
          exists c' done part,
            s' = setConn s c' /\ untouched c c' /\
            net.wire c' = net.wire c ++ done ++ part /\
            n = len done /\
            match err with
            | None => part = [] /\ done = data
            | Some e => isTemporary e = false /\ exists rest, data = done ++ part ++ rest
            end
      end
  | Panics _ _ => False
  | Blocks _ =>
      exists c, conn (self s) = Some c /\ net.closed c = false /\
                settles (net.script c) (List.length data) = false
  end.
Proof.
  unfold sendAll. destruct (conn (self s)) as [c|] eqn:Hc.
  - pose proof (sendLoop_spec (S (List.length (net.script c))) s c data 0 Hc
                  ltac:(lia)) as H.
    cbn [Z.add] in H.
    destruct (sendLoop (S (List.length (net.script c))) (len data) data 0 s)
      as [[n err] s'|msg s'|s']; auto.
    exists c. auto.
  - auto.
Qed.

(** ** Reading the response line *)

Lemma splitLine_line resp : forall rest,
  isLine resp = true -> splitLine (resp ++ rest) = Some (resp, rest).
Proof.
  induction resp as [|c resp IH]; intros rest H; [discriminate|].
  cbn [isLine] in H. destruct resp as [|c' resp'].
  - cbn [app splitLine]. rewrite H. reflexivity.
  - apply andb_true_iff in H as [Hc H]. apply negb_true_iff in Hc.
    change ((c :: c' :: resp') ++ rest) with (c :: (c' :: resp') ++ rest).
    cbn [splitLine]. rewrite Hc. rewrite IH by exact H. reflexivity.
Qed.

Lemma isLine_app body tail :
  forallb (fun c => negb (Ascii.eqb c LF)) body = true -> isLine tail = true ->
  isLine (body ++ tail) = true.
Proof.
  intros Hb Ht. induction body as [|c body IH]; [exact Ht|].
  cbn [forallb] in Hb. apply andb_true_iff in Hb as [Hc Hb].
  cbn [app isLine]. destruct (body ++ tail) eqn:E.
  - destruct body; [|discriminate]. simpl in E. subst. discriminate.
  - rewrite Hc. apply IH. exact Hb.
Qed.

Lemma isDigit_noLF ds :
  forallb isDigit ds = true -> forallb (fun c => negb (Ascii.eqb c LF)) ds = true.
Proof.
  induction ds as [|c ds IH]; cbn [forallb]; intros H; auto.
  apply andb_true_iff in H as [Hc H]. apply isDigit_code in Hc.
  rewrite IH by auto. rewrite eqb_code. change (code LF) with 10.
  cmp. reflexivity.
Qed.

Lemma decimal_noLF n :
  0 <= n -> forallb (fun c => negb (Ascii.eqb c LF)) (strconv.decimal n) = true.
Proof.
  intros Hn. apply isDigit_noLF. destruct (decimal_spec n Hn) as (_ & Hd & _). auto.
Qed.

Lemma itoa_noLF n : forallb (fun c => negb (Ascii.eqb c LF)) (itoa n) = true.
Proof.
  unfold itoa. destruct (Z_lt_dec n 0).
  - rewrite Itoa_neg by auto. cbn [forallb]. rewrite decimal_noLF by lia. reflexivity.
  - rewrite Itoa_digits by lia. apply decimal_noLF. lia.
Qed.

(** ** One exchange with the server *)

Lemma sendCommand_served s command resp rest :
  served s command resp rest -> isLine resp = true ->
  sendCommand command s = Returns (resp, None) (afterExchange s command rest).
Proof.
  intros (c & Hc & Hcl & Hcar & Hin) Hline.
  unfold sendCommand, afterExchange. rewrite Hc.
  unfold bind at 1. rewrite (sendAll_carries s c command Hc Hcl Hcar).
  cbv iota beta. unfold bind, ReadString.
  cbn [self conn setConn net.incoming].
  rewrite Hin, splitLine_line by exact Hline. reflexivity.
Qed.

Lemma wireOf_afterExchange s command resp rest rest' :
  served s command resp rest ->
  wireOf (afterExchange s command rest') = wireOf s ++ command.
Proof.
  intros (c & Hc & _). unfold afterExchange, wireOf. rewrite Hc. reflexivity.
Qed.

Lemma incomingOf_afterExchange s command resp rest rest' :
  served s command resp rest ->
  incomingOf (afterExchange s command rest') = rest'.
Proof.
  intros (c & Hc & _). unfold afterExchange, incomingOf. rewrite Hc. reflexivity.
Qed.

Lemma sendCommandAndCheck_served s command expected resp rest :
  served s command resp rest -> isLine resp = true ->
  sendCommandAndCheck command expected s =
  Returns (if beqb resp expected then None else Some (parseBeanstalkError resp))
          (afterExchange s command rest).
Proof.
  intros Hs Hl. unfold sendCommandAndCheck, bind.
  rewrite (sendCommand_served s command resp rest Hs Hl).
  destruct (beqb resp expected); reflexivity.
Qed.

(** ** The payload reader *)

Lemma firstn_firstn_le (n m : nat) (p : bytes) :
  (n <= m)%nat -> firstn n (firstn m p) = firstn n p.
Proof.
  intros H. rewrite firstn_firstn. f_equal. lia.
Qed.

(** With a declared length that fits and a stream long enough, [readData]
    reads [dataLen + 2] bytes and returns the first [dataLen] of them. *)
Lemma readData_ok s c dataLen :
  conn (self s) = Some c -> 0 <= dataLen -> dataLen + 2 <= maxAlloc ->
  dataLen + 2 <= len (net.incoming c) ->
  readData dataLen s =
  Returns (firstn (Z.to_nat dataLen) (net.incoming c), None)
    (setConn s (net.setIncoming c (skipn (Z.to_nat (dataLen + 2)) (net.incoming c)))).
Proof.
  intros Hc H0 Hmax Hlen. unfold readData.
  rewrite wrap_int_small by (unfold min_int, max_int, maxAlloc in *; lia).
  unfold maxAlloc in *. cmp. cbn [orb].
  unfold bind, ReadFull. rewrite Hc. cmp. cbv iota beta.
  rewrite wrap_int_small by (unfold min_int, max_int in *; lia).
  assert (Hl : len (firstn (Z.to_nat (dataLen + 2)) (net.incoming c)) = dataLen + 2).
  { unfold len in *. rewrite length_firstn. lia. }
  rewrite Hl. cmp. cbn [orb]. unfold ret.
  replace (dataLen + 2 - 2) with dataLen by lia.
  rewrite firstn_firstn_le by lia. reflexivity.
Qed.

Lemma afterExchange_read s command resp rest rest' :
  served s command resp rest ->
  exists c', conn (self (afterExchange s command rest)) = Some c' /\
             net.incoming c' = rest /\
             setConn (afterExchange s command rest) (net.setIncoming c' rest') =
             afterExchange s command rest'.
Proof.
  intros (c & Hc & _). unfold afterExchange. rewrite Hc.
  eexists. split; [reflexivity|]. split; reflexivity.
Qed.

Lemma putCommand_frame P :
  putCommand P = B "put 2147483648 0 120 " ++ itoa (len P) ++ CRLF ++ P ++ CRLF.
Proof.
  unfold putCommand.
  change (utoa defaultPriority) with (B "2147483648").
  change (utoa defaultTTR) with (B "120"). reflexivity.
Qed.

Lemma isLine_reply1 word id :
  forallb (fun c => negb (Ascii.eqb c LF)) word = true -> 0 <= id ->
  isLine (word ++ utoa id ++ CRLF) = true.
Proof.
  intros Hw Hid. apply isLine_app; [exact Hw|].
  apply isLine_app; [apply decimal_noLF; exact Hid|reflexivity].
Qed.

(** The length field of the frame is the decimal numeral of the payload's
    length: digits only, at least one, of that value, without a leading
    zero. *)
Lemma itoa_len_numeral (P : bytes) :
  itoa (len P) <> [] /\ forallb isDigit (itoa (len P)) = true /\
  value (itoa (len P)) 0 = len P /\
  (forall ds, itoa (len P) = "0"%char :: ds -> ds = []).
Proof.
  pose proof (len_nonneg P) as HP. unfold itoa.
  rewrite Itoa_digits by exact HP.
  destruct (decimal_spec (len P) HP) as (Hne & Hd & Hv).
  split; [exact Hne|]. split; [exact Hd|]. split; [exact Hv|].
  intros ds E. exact (decimal_leading_zero (len P) ds HP E).
Qed.

(** C1. For every payload [P] of length [L], [Put(P)] puts on the wire
    exactly [put 2147483648 0 120 L\r\n], then [P], then [\r\n], where the
    field [L] is the decimal numeral of the length of [P] (digits only, at
    least one, of value [L], no leading zero); when the server replies
    [INSERTED <id>\r\n] it returns [(id, nil)], and when the server replies
    [BURIED <id>\r\n] it returns [(id, errBuried)]. *)
Theorem Put_inserted_or_buried (P : bytes) (id : Z) (s : State) (rest : bytes) :
  0 <= id <= max_uint64 ->
  (exists L : bytes,
     putCommand P = B "put 2147483648 0 120 " ++ L ++ CRLF ++ P ++ CRLF /\
     L <> [] /\ forallb isDigit L = true /\ value L 0 = len P /\
     (forall ds, L = "0"%char :: ds -> ds = [])) /\
  (served s (putCommand P) (B "INSERTED " ++ utoa id ++ CRLF) rest ->
   Put P s = Returns (id, None) (afterExchange s (putCommand P) rest) /\
   wireOf (afterExchange s (putCommand P) rest) = wireOf s ++ putCommand P) /\
  (served s (putCommand P) (B "BURIED " ++ utoa id ++ CRLF) rest ->
   Put P s = Returns (id, Some errBuried) (afterExchange s (putCommand P) rest) /\
   wireOf (afterExchange s (putCommand P) rest) = wireOf s ++ putCommand P).
Proof.
  intros Hid. split.
  { exists (itoa (len P)). split; [apply putCommand_frame|].
    apply itoa_len_numeral. }
  split; intros Hs.
  - split; [|eapply wireOf_afterExchange; exact Hs].
    unfold Put, bind.
    rewrite (sendCommand_served _ _ _ _ Hs)
      by (apply isLine_reply1; [reflexivity|lia]).
    change (HasPrefix (B "INSERTED " ++ utoa id ++ CRLF) (B "IN")) with true.
    cbv iota.
    change (B "INSERTED " ++ utoa id ++ CRLF)
      with (B "INSERTED" ++ B " " ++ utoa id ++ CRLF).
    change (B "INSERTED %d" ++ CRLF) with (B "INSERTED" ++ B " %d" ++ CRLF).
    rewrite Sscanf_word_uint by (auto; reflexivity). reflexivity.
  - split; [|eapply wireOf_afterExchange; exact Hs].
    unfold Put, bind.
    rewrite (sendCommand_served _ _ _ _ Hs)
      by (apply isLine_reply1; [reflexivity|lia]).
    change (HasPrefix (B "BURIED " ++ utoa id ++ CRLF) (B "IN")) with false.
    change (HasPrefix (B "BURIED " ++ utoa id ++ CRLF) (B "BU")) with true.
    cbv iota.
    change (B "BURIED " ++ utoa id ++ CRLF)
      with (B "BURIED" ++ B " " ++ utoa id ++ CRLF).
    change (B "BURIED %d" ++ CRLF) with (B "BURIED" ++ B " %d" ++ CRLF).
    rewrite Sscanf_word_uint by (auto; reflexivity). reflexivity.
Qed.

Lemma Put_inserted_or_buried_witness :
  (Put (B "hello") (sampleState (B "INSERTED 42" ++ CRLF)) =
     Returns (42, None)
       (afterExchange (sampleState (B "INSERTED 42" ++ CRLF))
          (B "put 2147483648 0 120 5" ++ CRLF ++ B "hello" ++ CRLF) []) /\
   wireOf (afterExchange (sampleState (B "INSERTED 42" ++ CRLF))
             (B "put 2147483648 0 120 5" ++ CRLF ++ B "hello" ++ CRLF) []) =
     B "put 2147483648 0 120 5" ++ CRLF ++ B "hello" ++ CRLF) /\
  (Put (B "hello") (sampleState (B "BURIED 7" ++ CRLF)) =
     Returns (7, Some errBuried)
       (afterExchange (sampleState (B "BURIED 7" ++ CRLF))
          (B "put 2147483648 0 120 5" ++ CRLF ++ B "hello" ++ CRLF) []) /\
   wireOf (afterExchange (sampleState (B "BURIED 7" ++ CRLF))
             (B "put 2147483648 0 120 5" ++ CRLF ++ B "hello" ++ CRLF) []) =
     B "put 2147483648 0 120 5" ++ CRLF ++ B "hello" ++ CRLF).
Proof.
  split.
  - refine (proj1 (proj2
      (Put_inserted_or_buried (B "hello") 42
         (sampleState (B "INSERTED 42" ++ CRLF)) [] _)) _).
    + unfold max_uint64. lia.
    + served_sample.
  - refine (proj2 (proj2
      (Put_inserted_or_buried (B "hello") 7
         (sampleState (B "BURIED 7" ++ CRLF)) [] _)) _).
    + unfold max_uint64. lia.
    + served_sample.
Defined.

Lemma isLine_reserved id n :
  0 <= id -> isLine (B "RESERVED " ++ utoa id ++ B " " ++ itoa n ++ CRLF) = true.
Proof.
  intros Hid. apply isLine_app; [reflexivity|].
  apply isLine_app; [apply decimal_noLF; exact Hid|].
  apply isLine_app; [reflexivity|].
  apply isLine_app; [apply itoa_noLF|reflexivity].
Qed.

(** The header of a reservation is scanned into the job's ID and the
    declared length, and [readData] is run on what follows. *)
Lemma Reserve_header s id n rest :
  0 <= id <= max_uint64 -> min_int <= n <= max_int ->
  served s reserveCommand (B "RESERVED " ++ utoa id ++ B " " ++ itoa n ++ CRLF) rest ->
  Reserve s =
  ('(data, err) <- readData n ;; ret (Some {| ID := id; Data := data |}, err))
    (afterExchange s reserveCommand rest).
Proof.
  intros Hid Hn Hs. unfold Reserve. unfold bind at 1.
  rewrite (sendCommand_served _ _ _ _ Hs) by (apply isLine_reserved; lia).
  change (HasPrefix (B "RESERVED " ++ utoa id ++ B " " ++ itoa n ++ CRLF)
            (B "RESERVED")) with true.
  cbv iota.
  change (B "RESERVED " ++ utoa id ++ B " " ++ itoa n ++ CRLF)
    with (B "RESERVED" ++ B " " ++ utoa id ++ B " " ++ itoa n ++ CRLF).
  change (B "RESERVED %d %d" ++ CRLF) with (B "RESERVED" ++ B " %d %d" ++ CRLF).
  rewrite Sscanf_word_uint_int by (auto; reflexivity). reflexivity.
Qed.



(** The payload reader on a framed payload: the two bytes after the payload
    are consumed whatever they are. *)
Lemma readData_payload (dataLen : Z) (payload rest : bytes) (t1 t2 : ascii)
    (s : State) (c : net.Conn) :
  conn (self s) = Some c -> dataLen + 2 <= maxAlloc -> len payload = dataLen ->
  net.incoming c = payload ++ [t1; t2] ++ rest ->
  readData dataLen s = Returns (payload, None) (setConn s (net.setIncoming c rest)).
Proof.
  intros Hc Hmax Hlen Hin.
  assert (H0 : 0 <= dataLen) by (rewrite <- Hlen; apply len_nonneg).
  rewrite (readData_ok s c dataLen Hc H0 Hmax)
    by (rewrite Hin, !len_app; change (len [t1; t2]) with 2;
        pose proof (len_nonneg rest); lia).
  rewrite Hin.
  assert (E1 : Z.to_nat dataLen = List.length payload) by (unfold len in Hlen; lia).
  assert (E2 : Z.to_nat (dataLen + 2) = (List.length payload + 2)%nat)
    by (unfold len in Hlen; lia).
  rewrite E1, E2. rewrite firstn_app, Nat.sub_diag, firstn_all, app_nil_r.
  rewrite skipn_app.
  replace (List.length payload + 2 - List.length payload)%nat with 2%nat by lia.
  rewrite skipn_all2 by lia. reflexivity.
Qed.



Lemma splitLine_put_header (P rest : bytes) :
  splitLine (putCommand P ++ rest) =
  Some (B "put 2147483648 0 120 " ++ itoa (len P) ++ CRLF, P ++ CRLF ++ rest).
Proof.
  rewrite putCommand_frame.
  replace ((B "put 2147483648 0 120 " ++ itoa (len P) ++ CRLF ++ P ++ CRLF) ++ rest)
    with ((B "put 2147483648 0 120 " ++ itoa (len P) ++ CRLF) ++ P ++ CRLF ++ rest)
    by (rewrite <- !app_assoc; reflexivity).
  apply splitLine_line.
  apply isLine_app; [reflexivity|].
  apply isLine_app; [apply itoa_noLF|reflexivity].
Qed.

(** C7. Round trip: the bytes [Put] frames for a payload [P], its command
    line with the declared length [|P|], then [P], then the two-byte
    terminator, read back by the response reader and by the payload reader
    with the declared length [|P|], give exactly [P], and nothing of the
    frame is left over.  The frame is a byte slice [Put] has built, so its
    size is within the allocation limit. *)
Theorem Put_frame_readData_roundtrip (P rest : bytes) (s : State) (c : net.Conn) :
  conn (self s) = Some c -> len (putCommand P) <= maxAlloc ->
  net.incoming c = putCommand P ++ rest ->
  ReadString s =
    Returns (B "put 2147483648 0 120 " ++ itoa (len P) ++ CRLF, None)
      (setConn s (net.setIncoming c (P ++ CRLF ++ rest))) /\
  strconv.ParseInt (itoa (len P)) = (len P, None) /\
  readData (len P) (setConn s (net.setIncoming c (P ++ CRLF ++ rest))) =
    Returns (P, None) (setConn s (net.setIncoming c rest)).
Proof.
  intros Hc Hmax Hin.
  assert (Hfit : len P + 2 <= maxAlloc).
  { rewrite putCommand_frame in Hmax. rewrite !len_app in Hmax.
    change (len CRLF) with 2 in Hmax.
    pose proof (len_nonneg (B "put 2147483648 0 120 ")).
    pose proof (len_nonneg (itoa (len P))). lia. }
  pose proof (len_nonneg P) as HP.
  split; [|split].
  - unfold ReadString. rewrite Hc, Hin, splitLine_put_header. reflexivity.
  - apply ParseInt_Itoa. unfold min_int, max_int, maxAlloc in *. lia.
  - rewrite (readData_payload (len P) P rest CR LF
               (setConn s (net.setIncoming c (P ++ CRLF ++ rest)))
               (net.setIncoming c (P ++ CRLF ++ rest)));
      auto; reflexivity.
Qed.

Lemma Put_frame_readData_roundtrip_witness :
  readData (len (B "hello"))
    (setConn (sampleState (putCommand (B "hello") ++ B "more"))
       (net.setIncoming
          (sampleConn (putCommand (B "hello") ++ B "more")) (B "hello" ++ CRLF ++ B "more"))) =
  Returns (B "hello", None)
    (setConn (sampleState (putCommand (B "hello") ++ B "more"))
       (net.setIncoming
          (sampleConn (putCommand (B "hello") ++ B "more")) (B "more"))).
Proof.
  apply (Put_frame_readData_roundtrip (B "hello") (B "more")
           (sampleState (putCommand (B "hello") ++ B "more"))).
  - reflexivity.
  - vm_compute. discriminate.
  - reflexivity.
Defined.

(** ** The error classifier *)

Lemma lookup_None (m : list (bytes * error)) (str : bytes) :
  (forall key err, In (key, err) m -> str <> key) -> lookup m str = None.
Proof.
  induction m as [|[k v] m IH]; intros H; [reflexivity|].
  cbn [lookup].
  replace (beqb k str) with false
    by (symmetry; apply beqb_neq; intros E; apply (H k v); [left; reflexivity|auto]).
  apply IH. intros key err Hin. apply (H key err). right. exact Hin.
Qed.

Lemma parseBeanstalkError_table key err :
  In (key, err) errorTable -> parseBeanstalkError key = err.
Proof.
  intros H. unfold errorTable in H. cbn [In] in H.
  repeat (destruct H as [H|H]; [injection H as <- <-; reflexivity|]).
  contradiction.
Qed.

(** C4. The error classifier is a function of the complete response line
    alone: on each of the eleven literal lines of the table, terminator
    included, it returns the corresponding error; the match is exact and
    case-sensitive; on every other line it returns the generic unknown
    error whose text embeds the raw line. *)
Theorem parseBeanstalkError_classifies :
  parseBeanstalkError (B "OUT_OF_MEMORY" ++ CRLF) = errOutOfMemory /\
  parseBeanstalkError (B "INTERNAL_ERROR" ++ CRLF) = errInternalError /\
  parseBeanstalkError (B "BAD_FORMAT" ++ CRLF) = errBadFormat /\
  parseBeanstalkError (B "UNKNOWN_COMMAND" ++ CRLF) = errUnknownCommand /\
  parseBeanstalkError (B "BURIED" ++ CRLF) = errBuried /\
  parseBeanstalkError (B "EXPECTED_CRLF" ++ CRLF) = errExpectedCrlf /\
  parseBeanstalkError (B "JOB_TOO_BIG" ++ CRLF) = errJobTooBig /\
  parseBeanstalkError (B "DRAINING" ++ CRLF) = errDraining /\
  parseBeanstalkError (B "DEADLINE_SOON" ++ CRLF) = errDeadlineSoon /\
  parseBeanstalkError (B "TIMED_OUT" ++ CRLF) = errTimedOut /\
  parseBeanstalkError (B "NOT_FOUND" ++ CRLF) = errNotFound /\
  List.length errorTable = 11%nat /\
  (forall str,
     (forall key err, In (key, err) errorTable -> str <> key) ->
     parseBeanstalkError str = Errorf (B "unknown error: " ++ str) /\
     Error (parseBeanstalkError str) = B "unknown error: " ++ str) /\
  parseBeanstalkError (B "WEIRD" ++ CRLF) = Errorf (B "unknown error: WEIRD" ++ CRLF) /\
  parseBeanstalkError (B "buried" ++ CRLF) = Errorf (B "unknown error: buried" ++ CRLF) /\
  parseBeanstalkError (B "BURIED") = Errorf (B "unknown error: BURIED").
Proof.
  repeat (split; [reflexivity|]).
  split; [|repeat split].
  intros str H. unfold parseBeanstalkError. rewrite lookup_None by exact H.
  unfold fmt.Errorf, fmt.Sprintf. cbn [map fmt.render List.concat].
  rewrite app_nil_r. split; reflexivity.
Qed.

Lemma parseBeanstalkError_classifies_witness :
  parseBeanstalkError (B "WEIRD" ++ CRLF) =
  Errorf (B "unknown error: " ++ B "WEIRD" ++ CRLF).
Proof.
  destruct parseBeanstalkError_classifies
    as (_ & _ & _ & _ & _ & _ & _ & _ & _ & _ & _ & _ & H & _).
  apply (H (B "WEIRD" ++ CRLF)).
  intros key err Hin. unfold errorTable in Hin. cbn [In] in Hin.
  repeat (destruct Hin as [Hin|Hin]; [injection Hin as <- _; discriminate|]).
  contradiction.
Defined.

(** ** The operations that await an exact reply *)

Lemma sendCommandAndCheck_exact command expected :
  exactReply (sendCommandAndCheck command expected) command expected.
Proof.
  intros s resp rest Hs Hl.
  exists (if beqb resp expected then None else Some (parseBeanstalkError resp)).
  split; [apply sendCommandAndCheck_served; auto|].
  split; [eapply wireOf_afterExchange; exact Hs|].
  destruct (beqb resp expected) eqn:E.
  - apply beqb_eq in E. split; [tauto|]. intros H. contradiction.
  - apply beqb_neq in E. split; [|reflexivity].
    split; [discriminate|contradiction].
Qed.

Lemma verb_d_utoa id : 0 <= id -> fmt.render (fmt.verb_d id) = utoa id.
Proof.
  intros H. cbn [fmt.render]. apply Itoa_digits. exact H.
Qed.

Lemma buryCommand_eq id :
  0 <= id -> buryCommand id = B "bury " ++ utoa id ++ B " 2147483648" ++ CRLF.
Proof.
  intros H. unfold buryCommand, fmt.Sprintf. cbn [map List.concat].
  rewrite verb_d_utoa by exact H.
  change (fmt.render (fmt.verb_d defaultPriority)) with (B "2147483648").
  cbn [fmt.render]. rewrite app_nil_r. reflexivity.
Qed.

Lemma releaseCommand_eq id :
  0 <= id -> releaseCommand id = B "release " ++ utoa id ++ B " 2147483648 0" ++ CRLF.
Proof.
  intros H. unfold releaseCommand, fmt.Sprintf. cbn [map List.concat].
  rewrite verb_d_utoa by exact H.
  change (fmt.render (fmt.verb_d defaultPriority)) with (B "2147483648").
  change (fmt.render (fmt.verb_d 0)) with (B "0").
  cbn [fmt.render]. rewrite app_nil_r. reflexivity.
Qed.

Lemma kickJobCommand_eq id :
  0 <= id -> kickJobCommand id = B "kick-job " ++ utoa id ++ CRLF.
Proof.
  intros H. unfold kickJobCommand, fmt.Sprintf. cbn [map List.concat].
  rewrite verb_d_utoa by exact H.
  cbn [fmt.render]. rewrite app_nil_r. reflexivity.
Qed.

(** C6. For every tube name [T] and job id, each operation with an exact
    reply sends its documented command and succeeds exactly when the
    response line equals its documented literal: [Use(T)] sends
    [use T\r\n] and needs [USING T\r\n], so a reply naming another tube is
    a failure; [Delete] sends [delete <id>\r\n] and needs [DELETED\r\n];
    [Bury] sends [bury <id> 2147483648\r\n] and needs [BURIED\r\n];
    [Release] sends [release <id> 2147483648 0\r\n] and needs
    [RELEASED\r\n]; [KickJob] sends [kick-job <id>\r\n] and needs
    [KICKED\r\n]; any other response yields the classified error. *)
Theorem exact_reply_operations (T : bytes) (id : Z) :
  0 <= id <= max_uint64 ->
  exactReply (Use T) (B "use " ++ T ++ CRLF) (B "USING " ++ T ++ CRLF) /\
  exactReply (Delete id) (B "delete " ++ utoa id ++ CRLF) (B "DELETED" ++ CRLF) /\
  exactReply (Bury id) (B "bury " ++ utoa id ++ B " 2147483648" ++ CRLF)
    (B "BURIED" ++ CRLF) /\
  exactReply (Release id) (B "release " ++ utoa id ++ B " 2147483648 0" ++ CRLF)
    (B "RELEASED" ++ CRLF) /\
  exactReply (KickJob id) (B "kick-job " ++ utoa id ++ CRLF) (B "KICKED" ++ CRLF) /\
  (forall T', B "USING " ++ T' ++ CRLF = B "USING " ++ T ++ CRLF -> T' = T).
Proof.
  intros Hid. repeat split.
  - unfold Use, fmt.Sprintf. cbn [map List.concat fmt.render].
    rewrite app_nil_r. apply sendCommandAndCheck_exact.
  - apply sendCommandAndCheck_exact.
  - rewrite <- buryCommand_eq by lia. apply sendCommandAndCheck_exact.
  - rewrite <- releaseCommand_eq by lia. apply sendCommandAndCheck_exact.
  - rewrite <- kickJobCommand_eq by lia. apply sendCommandAndCheck_exact.
  - intros T' H. apply app_inv_head in H. apply app_inv_tail in H. exact H.
Qed.

Lemma exact_reply_operations_witness :
  exists r,
    Use (B "jobs") (sampleState (B "USING other" ++ CRLF)) =
      Returns r (afterExchange (sampleState (B "USING other" ++ CRLF))
                   (B "use jobs" ++ CRLF) []) /\
    wireOf (afterExchange (sampleState (B "USING other" ++ CRLF))
              (B "use jobs" ++ CRLF) []) =
      wireOf (sampleState (B "USING other" ++ CRLF)) ++ B "use jobs" ++ CRLF /\
    (r = None <-> B "USING other" ++ CRLF = B "USING jobs" ++ CRLF) /\
    (B "USING other" ++ CRLF <> B "USING jobs" ++ CRLF ->
     r = Some (parseBeanstalkError (B "USING other" ++ CRLF))).
Proof.
  refine (proj1 (exact_reply_operations (B "jobs") 12 _)
            (sampleState (B "USING other" ++ CRLF)) (B "USING other" ++ CRLF) [] _ _).
  - unfold max_uint64. lia.
  - served_sample.
  - reflexivity.
Defined.

(** ** Closing the connection *)

(** What [Close] does once the write of the quit command has come back. *)
Lemma Close_after_sendAll s r s1 c1 :
  sendAll quitCommand s = Returns r s1 -> s1 = setConn s c1 ->
  Close s =
  Returns tt
    {| self := {| conn := Some (snd (net.Close c1)); addr := addr (self s) |};
       warnings := warnings s ++
         match fst (net.Close c1) with
         | Some e => [closeWarning e]
         | None => []
         end |}.
Proof.
  intros E ->. unfold Close. unfold bind at 1. rewrite E.
  unfold bind, connIsNil, connClose. cbn [setConn self conn negb].
  unfold net.Close. cbn [fst snd].
  destruct (if net.closed c1 then Some ErrClosed else net.closeErr c1) as [e|].
  - unfold LogWarning, fmt.Sprintf, closeWarning.
    cbn [map List.concat fmt.render self warnings setConn addr].
    rewrite app_nil_r. reflexivity.
  - unfold ret. cbn [setConn self warnings addr]. rewrite app_nil_r. reflexivity.
Qed.

Lemma Close_nil s : conn (self s) = None -> Close s = Returns tt s.
Proof.
  intros Hc. unfold Close, bind, sendAll, connIsNil. rewrite Hc.
  cbn [negb]. rewrite Hc. reflexivity.
Qed.

(** When the script neither carries the bytes nor ends the write with a
    fatal error, the loop never returns. *)
Lemma sendLoop_blocks script : forall fuel c s toWrite total,
  conn (self s) = Some c -> net.closed c = false -> net.script c = script ->
  (List.length script < fuel)%nat ->
  settles script (List.length toWrite) = false ->
  exists s', sendLoop fuel (total + len toWrite) toWrite total s = Blocks s'.
Proof.
  induction script as [|[k err] script IH]; intros fuel c s toWrite total Hc Hcl Hs Hf Hset.
  - cbn [settles] in Hset. apply Nat.eqb_neq in Hset.
    destruct fuel as [|fuel]; [simpl in Hf; lia|].
    assert (Hpos : 0 < len toWrite) by (unfold len; lia).
    rewrite sendLoop_S by lia.
    unfold bind at 1. unfold connWrite. rewrite Hc. unfold net.Write.
    rewrite Hcl, Hs. eauto.
  - cbn [settles] in Hset.
    destruct (Nat.eqb (List.length toWrite) 0) eqn:Hlen; [discriminate|].
    destruct (fatal err) eqn:Hfatal; [discriminate|].
    destruct fuel as [|fuel]; [simpl in Hf; lia|].
    assert (Hpos : 0 < len toWrite)
      by (unfold len; apply Nat.eqb_neq in Hlen; lia).
    rewrite sendLoop_S by lia.
    unfold bind at 1. unfold connWrite. rewrite Hc. unfold net.Write.
    rewrite Hcl, Hs.
    set (n := Nat.min k (List.length toWrite)) in *.
    set (c1 := {| net.script := script;
                  net.wire := net.wire c ++ firstn n toWrite;
                  net.incoming := net.incoming c; net.readEnd := net.readEnd c;
                  net.closeErr := net.closeErr c; net.closed := false |}).
    assert (Hrec : exists s',
      sendLoop fuel (total + len toWrite) (skipn (Z.to_nat (Z.of_nat n)) toWrite)
        (total + Z.of_nat n) (setConn s c1) = Blocks s').
    { rewrite Nat2Z.id.
      pose proof (IH fuel c1 (setConn s c1) (skipn n toWrite) (total + Z.of_nat n)
                    eq_refl eq_refl eq_refl) as HI.
      rewrite length_skipn in HI.
      specialize (HI ltac:(simpl in Hf; lia) Hset).
      replace (total + Z.of_nat n + len (skipn n toWrite))
        with (total + len toWrite) in HI
        by (unfold n; rewrite len_skipn; lia).
      exact HI. }
    destruct err as [e|]; cbv iota beta.
    + cbn [fatal] in Hfatal. rewrite Hfatal. exact Hrec.
    + exact Hrec.
Qed.

Lemma sendAll_blocks s c data :
  conn (self s) = Some c -> net.closed c = false ->
  settles (net.script c) (List.length data) = false ->
  exists s', sendAll data s = Blocks s'.
Proof.
  intros Hc Hcl Hset. unfold sendAll. rewrite Hc.
  destruct (sendLoop_blocks (net.script c) (S (List.length (net.script c)))
              c s data 0 Hc Hcl eq_refl ltac:(lia) Hset) as [s' H].
  cbn [Z.add] in H. eauto.
Qed.

(** A write on a closed connection fails at once, with nothing sent. *)
Lemma sendAll_closed s c data :
  conn (self s) = Some c -> net.closed c = true -> data <> [] ->
  sendAll data s = Returns (0, Some ErrClosed) s.
Proof.
  intros Hc Hcl Hd. unfold sendAll. rewrite Hc.
  assert (Hpos : 0 < len data).
  { destruct data; [congruence|]. unfold len. simpl. lia. }
  rewrite sendLoop_S by lia.
  unfold bind, connWrite. rewrite Hc. unfold net.Write. rewrite Hcl.
  cbn [isTemporary negb]. unfold ret. rewrite setConn_same by exact Hc. reflexivity.
Qed.

(** Closing a closed connection reports [ErrClosed] and changes nothing. *)
Lemma Close_closed_conn c : net.closed c = true -> net.Close c = (Some ErrClosed, c).
Proof.
  intros H. unfold net.Close. rewrite H. destruct c; simpl in *; subst; reflexivity.
Qed.

(** C8 as amended. [Close()] first attempts to send the quit command, the
    seven bytes [quit \r\n], ignores the outcome of the attempt, and then
    closes the socket.  It has no error result and never panics, and it
    returns whenever the write of the quit command comes back: with no
    connection it returns at once and does nothing; on a working
    connection the wire gains exactly [quit \r\n] and the socket is closed;
    on a connection closed before nothing is sent and the failure of the
    close is logged; on a connection that breaks during the write a prefix
    of [quit \r\n] is on the wire and the socket is closed.  A failure of
    the close is only a logged warning.  The call does not return exactly
    when the connection is open and the transport blocks the write for
    ever. *)
Theorem Close_sends_quit_then_closes (s : State) :
  (forall msg s', Close s <> Panics msg s') /\
  (conn (self s) = None -> Close s = Returns tt s) /\
  (forall c, conn (self s) = Some c ->
     (net.closed c = false -> carries (net.script c) 7 = true ->
      Close s =
        Returns tt
          {| self := {| conn := Some {| net.script := remaining (net.script c) 7;
                                        net.wire := net.wire c ++ B "quit " ++ CRLF;
                                        net.incoming := net.incoming c;
                                        net.readEnd := net.readEnd c;
                                        net.closeErr := net.closeErr c;
                                        net.closed := true |};
                        addr := addr (self s) |};
             warnings := warnings s ++
               match net.closeErr c with
               | Some e => [B "Failed to close the cnx to beanstalkd: " ++ Error e]
               | None => []
               end |}) /\
     (net.closed c = true ->
      Close s =
        Returns tt
          {| self := self s;
             warnings := warnings s ++
               [B "Failed to close the cnx to beanstalkd: " ++ Error ErrClosed] |}) /\
     (net.closed c = true \/ settles (net.script c) 7 = true ->
      exists c1 sent rest,
        B "quit " ++ CRLF = sent ++ rest /\
        net.wire c1 = net.wire c ++ sent /\ untouched c c1 /\
        Close s =
          Returns tt
            {| self := {| conn := Some (snd (net.Close c1)); addr := addr (self s) |};
               warnings := warnings s ++
                 match fst (net.Close c1) with
                 | Some e => [B "Failed to close the cnx to beanstalkd: " ++ Error e]
                 | None => []
                 end |} /\
        net.closed (snd (net.Close c1)) = true) /\
     (net.closed c = false -> settles (net.script c) 7 = false ->
      exists s', Close s = Blocks s')) /\
  (forall s', Close s = Blocks s' ->
     exists c, conn (self s) = Some c /\ net.closed c = false /\
               settles (net.script c) 7 = false).
Proof.
  change 7%nat with (List.length quitCommand).
  change (B "quit " ++ CRLF) with quitCommand.
  pose proof (sendAll_spec quitCommand s) as Hspec.
  destruct (conn (self s)) as [c|] eqn:Hc.
  - destruct (sendAll quitCommand s) as [[n err] s1|msg s1|s1] eqn:E;
      [|contradiction|].
    + destruct Hspec as (c1 & done & part & Hs1 & Hu & Hw & Hn & Herr).
      pose proof (Close_after_sendAll s _ s1 c1 E Hs1) as HC.
      split; [intros msg s'; rewrite HC; discriminate|].
      split; [discriminate|].
      split; [|intros s'; rewrite HC; discriminate].
      intros c0 Hc0. injection Hc0 as <-.
      split; [|split; [|split]].
      * intros Hcl Hcar.
        rewrite (sendAll_carries s c quitCommand Hc Hcl Hcar) in E.
        injection E as _ _ <-.
        rewrite (Close_after_sendAll s _ _ _
                   (sendAll_carries s c quitCommand Hc Hcl Hcar) eq_refl).
        reflexivity.
      * intros Hcl.
        rewrite (Close_after_sendAll s _ s c
                   (sendAll_closed s c quitCommand Hc Hcl ltac:(discriminate))
                   (eq_sym (setConn_same s c Hc))).
        rewrite (Close_closed_conn c Hcl). cbn [fst snd].
        destruct s as [[cn ad] w]. simpl in *. subst cn. reflexivity.
      * intros _.
        assert (Hsplit : exists rest, quitCommand = (done ++ part) ++ rest).
        { destruct err as [e|].
          - destruct Herr as [_ [rest Hr]]. exists rest.
            rewrite Hr, <- app_assoc. reflexivity.
          - destruct Herr as [-> ->]. exists []. rewrite !app_nil_r. reflexivity. }
        destruct Hsplit as [rest Hrest].
        exists c1, (done ++ part), rest.
        split; [exact Hrest|]. split; [exact Hw|]. split; [exact Hu|].
        split; [exact HC|reflexivity].
      * intros Hcl Hset.
        destruct (sendAll_blocks s c quitCommand Hc Hcl Hset) as [s' Hb].
        congruence.
    + destruct Hspec as (c0 & Hc0 & Hcl & Hset). injection Hc0 as <-.
      assert (HB : Close s = Blocks s1).
      { unfold Close. unfold bind at 1. rewrite E. reflexivity. }
      split; [intros msg s'; rewrite HB; discriminate|].
      split; [discriminate|].
      split.
      * intros c0 Hc0. injection Hc0 as <-.
        split; [|split; [|split]].
        -- intros _ Hcar.
           rewrite (sendAll_carries s c quitCommand Hc Hcl Hcar) in E. discriminate.
        -- congruence.
        -- intros [H|H]; congruence.
        -- intros _ _. eauto.
      * intros s' _. exists c. auto.
  - pose proof (Close_nil s Hc) as HC.
    split; [intros msg s'; rewrite HC; discriminate|].
    split; [intros _; exact HC|].
    split; [discriminate|]. intros s'. rewrite HC. discriminate.
Qed.

(** A working connection that takes the bytes in pieces. *)
Lemma Close_sends_quit_then_closes_witness :
  Close (sampleState (B "leftover")) =
    Returns tt
      {| self := {| conn := Some {| net.script := [];
                                    net.wire := B "quit " ++ CRLF;
                                    net.incoming := B "leftover";
                                    net.readEnd := Some EOF;
                                    net.closeErr := None;
                                    net.closed := true |};
                    addr := B "127.0.0.1:6014" |};
         warnings := [] |}.
Proof.
  refine (proj1 (proj1 (proj2 (proj2
            (Close_sends_quit_then_closes (sampleState (B "leftover")))))
            (sampleConn (B "leftover")) eq_refl) eq_refl eq_refl).
Defined.

(** C8 as stated fails: on an open connection whose transport takes no
    byte and reports no error, the write of the quit command never comes
    back, and [Close()] does not return. *)
Lemma Close_blocks_on_stalled_write :
  Close {| self := {| conn := Some {| net.script := []; net.wire := [];
                                      net.incoming := []; net.readEnd := None;
                                      net.closeErr := None; net.closed := false |};
                      addr := B "127.0.0.1:6014" |};
           warnings := [] |} =
  Blocks {| self := {| conn := Some {| net.script := []; net.wire := [];
                                      net.incoming := []; net.readEnd := None;
                                      net.closeErr := None; net.closed := false |};
                      addr := B "127.0.0.1:6014" |};
           warnings := [] |} /\
  forall r s',
    Close {| self := {| conn := Some {| net.script := []; net.wire := [];
                                        net.incoming := []; net.readEnd := None;
                                        net.closeErr := None; net.closed := false |};
                        addr := B "127.0.0.1:6014" |};
             warnings := [] |} <> Returns r s'.
Proof.
  split; [reflexivity|]. intros r s'. discriminate.
Qed.

(** ** A reservation that declares a negative length *)

Lemma readData_negative s c dataLen :
  conn (self s) = Some c -> min_int <= dataLen < 0 ->
  (dataLen <= -3 -> readData dataLen s = Panics makesliceRange s) /\
  (dataLen = -2 -> readData dataLen s = Panics sliceBounds s) /\
  (dataLen = -1 -> forall b rest, net.incoming c = b :: rest ->
     readData dataLen s = Panics sliceBounds (setConn s (net.setIncoming c rest))) /\
  (dataLen = -1 -> net.incoming c = [] -> forall e, net.readEnd c = Some e ->
     readData dataLen s = Returns ([], Some e) s).
Proof.
  intros Hc Hd. unfold min_int in Hd. repeat split.
  - intros H. unfold readData.
    rewrite wrap_int_small by (unfold min_int, max_int; lia). cmp. reflexivity.
  - intros ->. unfold readData.
    change (wrap_int (-2 + 2)) with 0.
    change ((0 <? 0) || (maxAlloc <? 0)) with false. cbv iota.
    unfold bind, ReadFull. rewrite Hc.
    replace (0 <=? len (net.incoming c)) with true
      by (symmetry; apply Z.leb_le; apply len_nonneg).
    cbn [Z.to_nat firstn skipn]. change (wrap_int (0 - 2)) with (-2).
    cbn [orb Z.ltb Z.compare]. unfold panic.
    rewrite <- (setConn_same s c Hc) at 2. do 2 f_equal.
    destruct c; reflexivity.
  - intros -> b rest Hin. unfold readData.
    change (wrap_int (-1 + 2)) with 1.
    change ((1 <? 0) || (maxAlloc <? 1)) with false. cbv iota.
    unfold bind, ReadFull. rewrite Hc, Hin.
    replace (1 <=? len (b :: rest)) with true
      by (symmetry; apply Z.leb_le; unfold len; simpl; lia).
    change (wrap_int (1 - 2)) with (-1). reflexivity.
  - intros -> Hin e He. unfold readData.
    change (wrap_int (-1 + 2)) with 1.
    change ((1 <? 0) || (maxAlloc <? 1)) with false. cbv iota.
    unfold bind, ReadFull. rewrite Hc, Hin, He. cbn.
    rewrite <- (setConn_same s c Hc) at 2.
    replace (net.setIncoming c []) with c by (destruct c; simpl in *; subst; reflexivity).
    destruct e; reflexivity.
Qed.

(** C10 as amended. For every header [RESERVED <id> <len>\r\n] declaring a
    negative length that fits an [int], the payload read panics whenever
    the stream supplies the [len + 2] bytes read: on the allocation of the
    buffer for [len <= -3], with nothing read; on the bound of the slice
    for [len = -2], with nothing read, and for [len = -1] when at least one
    byte follows the header, with that byte read.  The two panics differ.
    For [len = -1] and a stream that ends at the header, the read error is
    returned with the job instead. *)
Theorem Reserve_negative_length (id dataLen : Z) (stream : bytes) (s : State) :
  0 <= id <= max_uint64 -> min_int <= dataLen < 0 ->
  served s reserveCommand
    (B "RESERVED " ++ utoa id ++ B " " ++ itoa dataLen ++ CRLF) stream ->
  (dataLen <= -3 ->
     Reserve s = Panics makesliceRange (afterExchange s reserveCommand stream)) /\
  (dataLen = -2 ->
     Reserve s = Panics sliceBounds (afterExchange s reserveCommand stream)) /\
  (dataLen = -1 -> forall b rest, stream = b :: rest ->
     Reserve s = Panics sliceBounds (afterExchange s reserveCommand rest)) /\
  (dataLen = -1 -> stream = [] ->
     forall c e, conn (self s) = Some c -> net.readEnd c = Some e ->
       Reserve s = Returns (Some {| ID := id; Data := [] |}, Some e)
                     (afterExchange s reserveCommand [])) /\
  makesliceRange = "makeslice: len out of range"%string /\
  sliceBounds = "slice bounds out of range"%string.
Proof.
  intros Hid Hd Hs.
  rewrite (Reserve_header s id dataLen stream Hid) by (auto; unfold max_int, min_int in *; lia).
  unfold bind.
  split; [|split; [|split; [|split; [|split; reflexivity]]]].
  - intros H3.
    destruct (afterExchange_read s _ _ stream stream Hs) as (c' & Hc' & _).
    rewrite (proj1 (readData_negative _ c' dataLen Hc' Hd) H3). reflexivity.
  - intros H2.
    destruct (afterExchange_read s _ _ stream stream Hs) as (c' & Hc' & _).
    rewrite (proj1 (proj2 (readData_negative _ c' dataLen Hc' Hd)) H2). reflexivity.
  - intros H1 b rest ->.
    destruct (afterExchange_read s _ _ (b :: rest) rest Hs) as (c' & Hc' & Hin & Hst).
    rewrite (proj1 (proj2 (proj2 (readData_negative _ c' dataLen Hc' Hd))) H1 b rest Hin).
    rewrite Hst. reflexivity.
  - intros H1 -> c e Hc He.
    destruct (afterExchange_read s _ _ [] [] Hs) as (c' & Hc' & Hin & _).
    assert (He' : net.readEnd c' = Some e).
    { destruct Hs as (c0 & Hc0 & _). unfold afterExchange in Hc'.
      rewrite Hc0 in Hc'. injection Hc' as <-. simpl. congruence. }
    rewrite (proj2 (proj2 (proj2 (readData_negative _ c' dataLen Hc' Hd))) H1 Hin e He').
    reflexivity.
Qed.

Lemma Reserve_negative_length_witness :
  Reserve (sampleState (B "RESERVED 1 -1" ++ CRLF ++ B "xy")) =
    Panics "slice bounds out of range"
      (afterExchange (sampleState (B "RESERVED 1 -1" ++ CRLF ++ B "xy"))
         reserveCommand (B "y")) /\
  Reserve (sampleState (B "RESERVED 1 -2" ++ CRLF ++ B "xy")) =
    Panics "slice bounds out of range"
      (afterExchange (sampleState (B "RESERVED 1 -2" ++ CRLF ++ B "xy"))
         reserveCommand (B "xy")) /\
  Reserve (sampleState (B "RESERVED 1 -3" ++ CRLF ++ B "xy")) =
    Panics "makeslice: len out of range"
      (afterExchange (sampleState (B "RESERVED 1 -3" ++ CRLF ++ B "xy"))
         reserveCommand (B "xy")).
Proof.
  split; [|split].
  - refine (proj1 (proj2 (proj2
      (Reserve_negative_length 1 (-1) (B "xy")
         (sampleState (B "RESERVED 1 -1" ++ CRLF ++ B "xy")) _ _ _)))
      eq_refl "x"%char (B "y") eq_refl).
    + unfold max_uint64. lia.
    + unfold min_int. lia.
    + served_sample.
  - refine (proj1 (proj2
      (Reserve_negative_length 1 (-2) (B "xy")
         (sampleState (B "RESERVED 1 -2" ++ CRLF ++ B "xy")) _ _ _)) eq_refl).
    + unfold max_uint64. lia.
    + unfold min_int. lia.
    + served_sample.
  - refine (proj1
      (Reserve_negative_length 1 (-3) (B "xy")
         (sampleState (B "RESERVED 1 -3" ++ CRLF ++ B "xy")) _ _ _) _).
    + unfold max_uint64. lia.
    + unfold min_int. lia.
    + served_sample.
    + lia.
Defined.

(** C10 as stated fails: the header [RESERVED 1 -1\r\n] declares a negative
    length, and when the stream ends right after it the payload read
    returns the end-of-stream error to the caller and does not panic. *)
Lemma Reserve_negative_length_returns_error :
  Reserve (sampleState (B "RESERVED 1 -1" ++ CRLF)) =
    Returns (Some {| ID := 1; Data := [] |}, Some EOF)
      (afterExchange (sampleState (B "RESERVED 1 -1" ++ CRLF)) reserveCommand []) /\
  forall msg s', Reserve (sampleState (B "RESERVED 1 -1" ++ CRLF)) <> Panics msg s'.
Proof.
  assert (H : Reserve (sampleState (B "RESERVED 1 -1" ++ CRLF)) =
    Returns (Some {| ID := 1; Data := [] |}, Some EOF)
      (afterExchange (sampleState (B "RESERVED 1 -1" ++ CRLF)) reserveCommand []))
    by (vm_compute; reflexivity).
  split; [exact H|]. intros msg s'. rewrite H. discriminate.
Qed.

(** ** Which responses reach the classifier *)

Lemma HasPrefix_app (s p q : bytes) :
  HasPrefix s (p ++ q) = true -> HasPrefix s p = true.
Proof.
  revert s. induction p as [|c p IH]; intros s H; [destruct s; reflexivity|].
  destruct s as [|d s]; [discriminate|]. cbn [app HasPrefix] in *.
  apply andb_true_iff in H as [H1 H2]. rewrite H1. apply IH. exact H2.
Qed.

Lemma Use_expected T :
  fmt.Sprintf [fmt.lit (B "USING "); fmt.verb_s T; fmt.lit CRLF] =
  B "USING " ++ T ++ CRLF.
Proof.
  unfold fmt.Sprintf. cbn [map List.concat fmt.render].
  rewrite app_nil_r. reflexivity.
Qed.

(** The lines an operation hands over are classified. *)
Lemma run_toClassifier op s resp rest :
  served s (commandOf op) resp rest -> isLine resp = true ->
  toClassifier op resp = true ->
  run op s = Returns (Some (parseBeanstalkError resp))
               (afterExchange s (commandOf op) rest).
Proof.
  intros Hs Hl Hc.
  destruct op; cbn [run commandOf toClassifier] in *;
    try (apply negb_true_iff in Hc;
         unfold Use, Delete, Bury, Release, KickJob; rewrite ?Use_expected;
         rewrite (sendCommandAndCheck_served _ _ _ _ _ Hs Hl), Hc; reflexivity).
  - unfold Watch, bind. rewrite (sendCommand_served _ _ _ _ Hs Hl).
    destruct (fmt.Sscanf resp (B "WATCHING %d" ++ CRLF) [fmt.IntPtr]) as [vals [e|]];
      [reflexivity|discriminate].
  - apply andb_true_iff in Hc as [H1 H2]. apply negb_true_iff in H1, H2.
    unfold Put, bind. rewrite (sendCommand_served _ _ _ _ Hs Hl), H1, H2.
    reflexivity.
  - apply negb_true_iff in Hc.
    unfold Reserve, bind. rewrite (sendCommand_served _ _ _ _ Hs Hl), Hc.
    reflexivity.
  - apply negb_true_iff in Hc.
    unfold Kick, bind. rewrite (sendCommand_served _ _ _ _ Hs Hl), Hc.
    reflexivity.
Qed.

(** Every line of the error table is handed over by every operation, but
    for the pairs set apart and for [BURIED] in reply to [Put]. *)
Lemma table_toClassifier op key err :
  In (key, err) errorTable -> setApart op key = false ->
  toClassifier op key = true \/
  (exists data, op = OpPut data) /\ key = B "BURIED" ++ CRLF.
Proof.
  intros Hin Hset. unfold errorTable in Hin. cbn [In] in Hin.
  repeat (destruct Hin as [Hin|Hin];
          [injection Hin as <- <-;
           destruct op; first [ left; vm_compute; reflexivity
                              | right; split; [eexists; reflexivity|reflexivity]
                              | vm_compute in Hset; discriminate ] |]).
  contradiction.
Qed.

(** C5 as amended. For every public operation, the error classifier is
    invoked on every response line that does not start with the
    operation's success keyword ([IN] or [BU] for [Put], [RESERVED] for
    [Reserve], [KICKED] for [Kick]), that fails the scan of [Watch], or
    that differs from the expected literal ([Use], [Delete], [Bury],
    [Release], [KickJob]); hence every line of the error table yields its
    error kind, in reply to every operation but [Bury] for [BURIED] (its
    success reply) and [Put] for a line starting with [IN]; a line that
    starts with [INSERTED], [RESERVED] or [KICKED] and fails the scan of
    [Put], [Reserve] or [Kick] yields the scan error. *)
Theorem classifier_invoked_by_design (op : operation) (s : State)
    (resp rest : bytes) :
  served s (commandOf op) resp rest -> isLine resp = true ->
  (toClassifier op resp = true ->
   run op s = Returns (Some (parseBeanstalkError resp))
                (afterExchange s (commandOf op) rest)) /\
  (forall err, In (resp, err) errorTable -> setApart op resp = false ->
   run op s = Returns (Some err) (afterExchange s (commandOf op) rest)) /\
  (forall e,
     match op with
     | OpPut _ =>
         HasPrefix resp (B "INSERTED") = true /\
         snd (fmt.Sscanf resp (B "INSERTED %d" ++ CRLF) [fmt.Uint64Ptr]) = Some e
     | OpReserve =>
         HasPrefix resp (B "RESERVED") = true /\
         snd (fmt.Sscanf resp (B "RESERVED %d %d" ++ CRLF)
                [fmt.Uint64Ptr; fmt.IntPtr]) = Some e
     | OpKick _ =>
         HasPrefix resp (B "KICKED") = true /\
         snd (fmt.Sscanf resp (B "KICKED %d" ++ CRLF) [fmt.Uint64Ptr]) = Some e
     | _ => False
     end ->
     run op s = Returns (Some e) (afterExchange s (commandOf op) rest)).
Proof.
  intros Hs Hl. split; [apply run_toClassifier; auto|]. split.
  - intros err Hin Hset.
    destruct (table_toClassifier op resp err Hin Hset) as [Hc|[[data ->] ->]].
    + rewrite (run_toClassifier op s resp rest Hs Hl Hc).
      rewrite (parseBeanstalkError_table resp err Hin). reflexivity.
    + assert (err = errBuried) as ->.
      { rewrite <- (parseBeanstalkError_table _ _ Hin). reflexivity. }
      cbn [run commandOf] in *. unfold Put, bind.
      rewrite (sendCommand_served _ _ _ _ Hs Hl). reflexivity.
  - intros e H. destruct op; try contradiction; destruct H as [Hp Hscan];
      cbn [run commandOf] in *.
    + unfold Put, bind. rewrite (sendCommand_served _ _ _ _ Hs Hl).
      rewrite (HasPrefix_app resp (B "IN") (B "SERTED") Hp).
      destruct (fmt.Sscanf resp (B "INSERTED %d" ++ CRLF) [fmt.Uint64Ptr])
        as [vals err]. cbn [snd] in Hscan. subst err. reflexivity.
    + unfold Reserve, bind. rewrite (sendCommand_served _ _ _ _ Hs Hl), Hp.
      destruct (fmt.Sscanf resp (B "RESERVED %d %d" ++ CRLF)
                  [fmt.Uint64Ptr; fmt.IntPtr]) as [vals err].
      cbn [snd] in Hscan. subst err. reflexivity.
    + unfold Kick, bind. rewrite (sendCommand_served _ _ _ _ Hs Hl), Hp.
      destruct (fmt.Sscanf resp (B "KICKED %d" ++ CRLF) [fmt.Uint64Ptr])
        as [vals err]. cbn [snd] in Hscan. subst err. reflexivity.
Qed.

Lemma classifier_invoked_by_design_witness :
  run (OpReserve) (sampleState (B "DEADLINE_SOON" ++ CRLF)) =
  Returns (Some errDeadlineSoon)
    (afterExchange (sampleState (B "DEADLINE_SOON" ++ CRLF)) reserveCommand []).
Proof.
  refine (proj1 (proj2 (classifier_invoked_by_design OpReserve
            (sampleState (B "DEADLINE_SOON" ++ CRLF)) (B "DEADLINE_SOON" ++ CRLF) []
            _ _)) errDeadlineSoon _ _).
  - served_sample.
  - reflexivity.
  - left. reflexivity.
  - reflexivity.
Defined.

(** C5 as stated fails: the line [KICKED\r\n] in reply to [Kick] does not
    match the success pattern [KICKED <n>\r\n], and [Kick] returns the
    scanner's error, not the error the classifier gives for that line. *)
Lemma Kick_malformed_reply_not_classified :
  Kick 10 (sampleState (B "KICKED" ++ CRLF)) =
    Returns (0, Some (ScanError "unexpected newline"))
      (afterExchange (sampleState (B "KICKED" ++ CRLF)) (kickCommand 10) []) /\
  parseBeanstalkError (B "KICKED" ++ CRLF) <> ScanError "unexpected newline".
Proof.
  split; [vm_compute; reflexivity|]. vm_compute. discriminate.
Qed.

(** The line [INTERNAL_ERROR\r\n] of the error table, in reply to [Put],
    starts with [IN]: [Put] scans it as an [INSERTED] reply and returns the
    scanner's error, while the classifier maps it to [errInternalError]. *)
Lemma Put_internal_error_scanned :
  Put (B "hello") (sampleState (B "INTERNAL_ERROR" ++ CRLF)) =
    Returns (0, Some (ScanError "input does not match format"))
      (afterExchange (sampleState (B "INTERNAL_ERROR" ++ CRLF))
         (putCommand (B "hello")) []) /\
  parseBeanstalkError (B "INTERNAL_ERROR" ++ CRLF) = errInternalError.
Proof.
  split; vm_compute; reflexivity.
Qed.

(** ** The reliable write loop on every script *)

(** [sendAll] reports success only when every byte is on the wire. *)
Lemma sendAll_success_complete data s n s' :
  sendAll data s = Returns (n, None) s' ->
  n = len data /\ wireOf s' = wireOf s ++ data.
Proof.
  intros E. pose proof (sendAll_spec data s) as H. rewrite E in H.
  unfold wireOf. destruct (conn (self s)) as [c|].
  - destruct H as (c' & done & part & -> & _ & Hw & -> & -> & ->).
    cbn [setConn self conn]. rewrite Hw, app_nil_r. auto.
  - destruct H as (_ & H & _). discriminate.
Qed.

(** With no connection it fails at once, before any write. *)
Lemma sendAll_no_connection data s :
  conn (self s) = None -> sendAll data s = Returns (0, Some errNoConnection) s.
Proof.
  intros Hc. unfold sendAll. rewrite Hc. reflexivity.
Qed.

(** An error [sendAll] returns on a connection is not transient; the count
    it returns with it is the count of the bytes taken by the attempts
    before the failing one. *)
Lemma sendAll_error_fatal data s c n e s' :
  conn (self s) = Some c -> sendAll data s = Returns (n, Some e) s' ->
  isTemporary e = false /\
  exists done part rest,
    data = done ++ part ++ rest /\ n = len done /\
    wireOf s' = wireOf s ++ done ++ part.
Proof.
  intros Hc E. pose proof (sendAll_spec data s) as H. rewrite E, Hc in H.
  destruct H as (c' & done & part & -> & _ & Hw & -> & Ht & rest & Hr).
  split; [exact Ht|]. exists done, part, rest.
  unfold wireOf. rewrite Hc. cbn [setConn self conn]. auto.
Qed.

(** Short writes and transient errors are retried on the rest of the
    buffer: a script that carries the bytes gives success. *)
Lemma sendAll_retries data s c :
  conn (self s) = Some c -> net.closed c = false ->
  carries (net.script c) (List.length data) = true ->
  exists s', sendAll data s = Returns (len data, None) s' /\
             wireOf s' = wireOf s ++ data.
Proof.
  intros Hc Hcl Hcar. eexists. split; [apply sendAll_carries; eauto|].
  unfold wireOf. rewrite Hc. reflexivity.
Qed.

(** C3 at the failing input. The transport takes one byte of [ab] and
    reports a non-transient error in the same call of [Write]: [sendAll]
    returns the error with the count 0, while one byte is on the wire. *)
Theorem sendAll_fatal_error_count :
  let c := {| net.script := [(1%nat, Some (NetError false "connection reset by peer"))];
              net.wire := []; net.incoming := []; net.readEnd := Some EOF;
              net.closeErr := None; net.closed := false |} in
  let s := {| self := {| conn := Some c; addr := B "127.0.0.1:6014" |};
              warnings := [] |} in
  exists s',
    sendAll (B "ab") s =
      Returns (0, Some (NetError false "connection reset by peer")) s' /\
    wireOf s' = B "a" /\ len (wireOf s') = 1.
Proof.
  eexists. split; [vm_compute; reflexivity|]. split; reflexivity.
Qed.

(** * Further properties of the client *)

(** ** Watch and Kick on their success replies *)

(** A response [<word> <n>\r\n] scanned with [<word> %d\r\n] into an [*int]. *)
Lemma Sscanf_word_int (word : bytes) (n : Z) :
  forallb isASCII word = true -> forallb plain (map code word) = true ->
  min_int <= n <= max_int ->
  fmt.Sscanf (word ++ B " " ++ itoa n ++ CRLF) (word ++ B " %d" ++ CRLF)
    [fmt.IntPtr] = ([n], None).
Proof.
  intros Ha Hp Hn. unfold fmt.Sscanf.
  rewrite !runes_ascii
    by (rewrite ?forallb_app, ?Ha, ?itoa_ascii; reflexivity).
  rewrite length_app. change (List.length (B " %d" ++ CRLF)) with 5%nat.
  rewrite Nat.add_comm. cbn [Nat.add]. rewrite !map_app.
  change (map code (B " %d")) with [32; 37; 100].
  change (map code (B " ")) with [32]. change (map code CRLF) with [13; 10].
  cbn [app].
  rewrite doScanf_int by (auto; reflexivity).
  apply doScanf_crlf.
Qed.

(** [Watch(T)] sends [watch T\r\n]; on the reply [WATCHING <count>\r\n] it
    returns nil whatever the count is, a negative one included: the count
    is scanned and dropped. *)
Theorem Watch_watching (T : bytes) (count : Z) (s : State) (rest : bytes) :
  min_int <= count <= max_int ->
  served s (B "watch " ++ T ++ CRLF) (B "WATCHING " ++ itoa count ++ CRLF) rest ->
  Watch T s = Returns None (afterExchange s (B "watch " ++ T ++ CRLF) rest) /\
  wireOf (afterExchange s (B "watch " ++ T ++ CRLF) rest) =
    wireOf s ++ B "watch " ++ T ++ CRLF.
Proof.
  intros Hn Hs. split; [|eapply wireOf_afterExchange; exact Hs].
  unfold Watch, bind. fold (watchCommand T).
  change (B "watch " ++ T ++ CRLF) with (watchCommand T) in Hs.
  rewrite (sendCommand_served _ _ _ _ Hs)
    by (apply isLine_app; [reflexivity|];
        apply isLine_app; [apply itoa_noLF|reflexivity]).
  change (B "WATCHING " ++ itoa count ++ CRLF)
    with (B "WATCHING" ++ B " " ++ itoa count ++ CRLF).
  change (B "WATCHING %d" ++ CRLF) with (B "WATCHING" ++ B " %d" ++ CRLF).
  rewrite Sscanf_word_int by (auto; reflexivity). reflexivity.
Qed.

Lemma Watch_watching_witness :
  Watch (B "jobs") (sampleState (B "WATCHING -2" ++ CRLF)) =
  Returns None
    (afterExchange (sampleState (B "WATCHING -2" ++ CRLF)) (B "watch jobs" ++ CRLF) []).
Proof.
  apply (Watch_watching (B "jobs") (-2) (sampleState (B "WATCHING -2" ++ CRLF)) []).
  - unfold min_int, max_int. lia.
  - served_sample.
Defined.

Lemma kickCommand_eq bound :
  0 <= bound -> kickCommand bound = B "kick " ++ utoa bound ++ CRLF.
Proof.
  intros H. unfold kickCommand, fmt.Sprintf. cbn [map List.concat].
  rewrite verb_d_utoa by exact H.
  cbn [fmt.render]. rewrite app_nil_r. reflexivity.
Qed.

(** [Kick(bound)] sends [kick <bound>\r\n]; on the reply [KICKED <n>\r\n] it
    returns [(n, nil)], the count the server reports, whether or not it
    exceeds the bound. *)
Theorem Kick_kicked (bound n : Z) (s : State) (rest : bytes) :
  0 <= bound <= max_uint64 -> 0 <= n <= max_uint64 ->
  served s (B "kick " ++ utoa bound ++ CRLF) (B "KICKED " ++ utoa n ++ CRLF) rest ->
  Kick bound s =
    Returns (n, None) (afterExchange s (B "kick " ++ utoa bound ++ CRLF) rest) /\
  wireOf (afterExchange s (B "kick " ++ utoa bound ++ CRLF) rest) =
    wireOf s ++ B "kick " ++ utoa bound ++ CRLF.
Proof.
  intros Hb Hn Hs. split; [|eapply wireOf_afterExchange; exact Hs].
  unfold Kick, bind. rewrite kickCommand_eq by lia.
  rewrite (sendCommand_served _ _ _ _ Hs)
    by (apply isLine_reply1; [reflexivity|lia]).
  change (HasPrefix (B "KICKED " ++ utoa n ++ CRLF) (B "KICKED")) with true.
  cbv iota.
  change (B "KICKED " ++ utoa n ++ CRLF) with (B "KICKED" ++ B " " ++ utoa n ++ CRLF).
  change (B "KICKED %d" ++ CRLF) with (B "KICKED" ++ B " %d" ++ CRLF).
  rewrite Sscanf_word_uint by (auto; reflexivity). reflexivity.
Qed.

Lemma Kick_kicked_witness :
  Kick 10 (sampleState (B "KICKED 25" ++ CRLF)) =
  Returns (25, None)
    (afterExchange (sampleState (B "KICKED 25" ++ CRLF)) (B "kick 10" ++ CRLF) []).
Proof.
  apply (Kick_kicked 10 25 (sampleState (B "KICKED 25" ++ CRLF)) []).
  - unfold max_uint64. lia.
  - unfold max_uint64. lia.
  - served_sample.
Defined.

(** ** Without a connection *)

Lemma sendCommand_nil command s :
  conn (self s) = None ->
  sendCommand command s = Returns ([], Some errNoConnection) s.
Proof.
  intros Hc. unfold sendCommand, bind, sendAll. rewrite Hc. reflexivity.
Qed.

(** On a client that has no connection every operation fails with the
    no-connection error, with the zero value where it returns one, and
    leaves the client as it was: nothing is written, read or logged. *)
Theorem operations_without_connection (s : State) (T P : bytes) (id : Z) :
  conn (self s) = None ->
  Watch T s = Returns (Some errNoConnection) s /\
  Use T s = Returns (Some errNoConnection) s /\
  Put P s = Returns (0, Some errNoConnection) s /\
  Delete id s = Returns (Some errNoConnection) s /\
  Reserve s = Returns (None, Some errNoConnection) s /\
  Bury id s = Returns (Some errNoConnection) s /\
  Release id s = Returns (Some errNoConnection) s /\
  KickJob id s = Returns (Some errNoConnection) s /\
  Kick id s = Returns (0, Some errNoConnection) s.
Proof.
  intros Hc.
  repeat split;
    unfold Watch, Use, Put, Delete, Reserve, Bury, Release, KickJob, Kick,
      sendCommandAndCheck, bind;
    rewrite sendCommand_nil by exact Hc; reflexivity.
Qed.

Lemma operations_without_connection_witness :
  Reserve {| self := {| conn := None; addr := [] |}; warnings := [] |} =
  Returns (None, Some errNoConnection)
    {| self := {| conn := None; addr := [] |}; warnings := [] |}.
Proof.
  apply (operations_without_connection
           {| self := {| conn := None; addr := [] |}; warnings := [] |} [] [] 0).
  reflexivity.
Defined.

(** ** Put on a reply that starts with BU *)

Lemma HasPrefix_BU_not_IN resp :
  HasPrefix resp (B "BU") = true -> HasPrefix resp (B "IN") = false.
Proof.
  destruct resp as [|c resp]; [discriminate|].
  cbn [B list_ascii_of_string HasPrefix]. intros H.
  apply andb_true_iff in H as [H _]. apply Ascii.eqb_eq in H. subst c.
  reflexivity.
Qed.

(** With no operand left, the scanner stores nothing more. *)
Lemma doScanf_no_operands fuel : forall format stored inp,
  fst (fmt.doScanf fuel format [] stored inp) = stored.
Proof.
  induction fuel as [|fuel IH]; intros format stored inp.
  - reflexivity.
  - destruct format as [|c0 format']; [reflexivity|].
    cbn [fmt.doScanf].
    destruct (fmt.advance _ _ 0 inp) as [w format1 inp1|e]; [|reflexivity].
    destruct (w >? 0); [apply IH|].
    destruct (negb (fmt.isPercent c0)).
    { destruct (w <? 0); reflexivity. }
    destruct format' as [|c format2]; [reflexivity|].
    destruct (if c =? 99 then fmt.Got tt inp1 else fmt.SkipSpace inp1)
      as [[] inp2|e]; [|reflexivity].
    destruct (fmt.isPercent c); [|reflexivity].
    destruct (fmt.scanPercent inp2) as [[] inp3|e]; [apply IH|reflexivity].
Qed.

(** The runes of a string that starts with ASCII bytes. *)
Lemma decode_app_ascii a : forall fuel b,
  forallb isASCII a = true -> (List.length a <= fuel)%nat ->
  utf8.decode fuel (a ++ b) = map code a ++ utf8.decode (fuel - List.length a) b.
Proof.
  induction a as [|c a IH]; intros fuel b Ha Hf.
  - cbn [app map List.length]. rewrite Nat.sub_0_r. reflexivity.
  - destruct fuel as [|fuel]; [simpl in Hf; lia|].
    cbn [forallb] in Ha. apply andb_true_iff in Ha as [Hc Ha].
    unfold isASCII in Hc.
    cbn [app utf8.decode utf8.DecodeRune]. rewrite Hc.
    cbn [skipn map List.length Nat.sub app]. f_equal. apply IH; auto.
    simpl in Hf. lia.
Qed.

(** A line [BURIED <id>] followed by anything that does not continue the
    number: the scan stores the id, whatever it then says of the rest. *)
Lemma Sscanf_buried_prefix (id : Z) (t : ascii) (tail : bytes) :
  0 <= id <= max_uint64 -> isDigit t = false -> isASCII t = true ->
  fst (fmt.Sscanf (B "BURIED " ++ utoa id ++ t :: tail) (B "BURIED %d" ++ CRLF)
         [fmt.Uint64Ptr]) = [id].
Proof.
  intros Hid Ht Ha. unfold fmt.Sscanf, utf8.runes.
  replace (B "BURIED " ++ utoa id ++ t :: tail)
    with ((B "BURIED " ++ utoa id ++ [t]) ++ tail)
    by (rewrite <- !app_assoc; reflexivity).
  rewrite (decode_app_ascii (B "BURIED " ++ utoa id ++ [t]) _ tail).
  2: { rewrite !forallb_app, utoa_ascii by lia. cbn [forallb]. rewrite Ha. reflexivity. }
  2: { rewrite (length_app (B "BURIED " ++ utoa id ++ [t]) tail). lia. }
  rewrite !map_app. cbn [map].
  change (map code (B "BURIED ")) with (map code (B "BURIED") ++ [32]).
  rewrite <- !app_assoc. cbn [app].
  change (utf8.decode (List.length (B "BURIED %d" ++ CRLF)) (B "BURIED %d" ++ CRLF))
    with (map code (B "BURIED") ++ 32 :: 37 :: 100 :: [13; 10]).
  change (S (List.length (B "BURIED %d" ++ CRLF))) with (S (S 10)).
  set (rest := utf8.decode _ tail).
  assert (Hr : fmt.decimalDigit (code t) = false) by exact Ht.
  pose proof (doScanf_uint (map code (B "BURIED")) 10 [13; 10] [] [] id (code t) rest
                eq_refl Hid Hr) as HD.
  unfold utf8.rune in *. rewrite HD. apply doScanf_no_operands.
Qed.

(** Whatever follows [BU] on the response line, [Put] reports the job as
    buried: the outcome of the scan is dropped, so the error is
    [errBuried] for every such line.  The id is the one the scan stored
    before it stopped: 0 on the bare line [BURIED\r\n], and [id] on every
    line that starts with [BURIED <id>] and goes on with a byte that is not
    a digit, whether or not the rest of the line matches the format. *)
Theorem Put_BU_is_buried (P resp rest : bytes) (s : State) :
  served s (putCommand P) resp rest -> isLine resp = true ->
  HasPrefix resp (B "BU") = true ->
  (exists id,
     Put P s = Returns (id, Some errBuried) (afterExchange s (putCommand P) rest)) /\
  (resp = B "BURIED" ++ CRLF ->
   Put P s = Returns (0, Some errBuried) (afterExchange s (putCommand P) rest)) /\
  (forall id t tail,
     0 <= id <= max_uint64 -> isDigit t = false -> isASCII t = true ->
     resp = B "BURIED " ++ utoa id ++ t :: tail ->
     Put P s = Returns (id, Some errBuried) (afterExchange s (putCommand P) rest)).
Proof.
  intros Hs Hl Hbu.
  assert (E : Put P s =
    Returns (nth 0 (fst (fmt.Sscanf resp (B "BURIED %d" ++ CRLF) [fmt.Uint64Ptr])) 0,
             Some errBuried)
      (afterExchange s (putCommand P) rest)).
  { unfold Put, bind. rewrite (sendCommand_served _ _ _ _ Hs Hl).
    rewrite (HasPrefix_BU_not_IN resp Hbu), Hbu.
    destruct (fmt.Sscanf resp (B "BURIED %d" ++ CRLF) [fmt.Uint64Ptr]). reflexivity. }
  split; [eexists; exact E|]. split.
  - intros ->. rewrite E. reflexivity.
  - intros id t tail Hid Ht Ha ->. rewrite E.
    rewrite (Sscanf_buried_prefix id t tail Hid Ht Ha). reflexivity.
Qed.

Lemma Put_BU_is_buried_witness :
  Put (B "x") (sampleState (B "BURIED 1_0" ++ CRLF)) =
  Returns (1, Some errBuried)
    (afterExchange (sampleState (B "BURIED 1_0" ++ CRLF))
       (B "put 2147483648 0 120 1" ++ CRLF ++ B "x" ++ CRLF) []).
Proof.
  refine (proj2 (proj2 (Put_BU_is_buried (B "x") (B "BURIED 1_0" ++ CRLF) []
                   (sampleState (B "BURIED 1_0" ++ CRLF)) _ _ _))
            1 "_"%char (B "0" ++ CRLF) _ _ _ _).
  - served_sample.
  - reflexivity.
  - reflexivity.
  - unfold max_uint64. lia.
  - reflexivity.
  - reflexivity.
  - reflexivity.
Defined.

(** ** What sendAll puts on the wire *)

Lemma firstn_app_exact (x y : bytes) : firstn (List.length x) (x ++ y) = x.
Proof.
  rewrite firstn_app, Nat.sub_diag, firstn_all. cbn [firstn]. apply app_nil_r.
Qed.

(** Whenever [sendAll] returns, with or without an error, the bytes it has
    put on the wire are a prefix of the buffer, in order; the count it
    returns never exceeds them; it reports success only when the prefix is
    the whole buffer; an error it returns is not transient; and it reads
    nothing and logs nothing. *)
Theorem sendAll_writes_prefix (data : bytes) (s s' : State) (n : Z)
    (err : option error) :
  sendAll data s = Returns (n, err) s' ->
  exists k : nat,
    wireOf s' = wireOf s ++ firstn k data /\
    (k <= List.length data)%nat /\ 0 <= n <= Z.of_nat k /\
    (err = None -> n = len data /\ k = List.length data) /\
    (forall e, err = Some e -> conn (self s) <> None -> isTemporary e = false) /\
    incomingOf s' = incomingOf s /\ warnings s' = warnings s.
Proof.
  intros E. pose proof (sendAll_spec data s) as H. rewrite E in H.
  unfold wireOf, incomingOf. destruct (conn (self s)) as [c|] eqn:Hc.
  - destruct H as (c' & done & part & -> & Hu & Hw & -> & Herr).
    cbn [setConn self conn warnings].
    destruct Hu as (Hin & _).
    assert (Hpre : exists rest, data = (done ++ part) ++ rest).
    { destruct err as [e|].
      - destruct Herr as [_ [rest Hr]]. exists rest. rewrite Hr, <- app_assoc. reflexivity.
      - destruct Herr as [-> ->]. exists []. rewrite !app_nil_r. reflexivity. }
    destruct Hpre as [rest Hrest].
    exists (List.length (done ++ part)).
    split; [rewrite Hw, Hrest, firstn_app_exact; reflexivity|].
    split; [rewrite Hrest, (length_app (done ++ part)); lia|].
    split; [rewrite length_app; unfold len; lia|].
    split; [|split; [|split; [exact Hin|reflexivity]]].
    + intros ->. destruct Herr as [-> ->]. rewrite app_nil_r. split; reflexivity.
    + intros e -> _. destruct Herr as [Ht _]. exact Ht.
  - destruct H as (-> & -> & ->). rewrite Hc. exists 0%nat.
    cbn [firstn]. repeat split; try lia; try discriminate.
    intros e _ Hne. congruence.
Qed.

Lemma sendAll_writes_prefix_witness :
  exists k : nat,
    wireOf (afterExchange (sampleState []) (B "hello") []) =
      wireOf (sampleState []) ++ firstn k (B "hello") /\
    (k <= List.length (B "hello"))%nat /\ 0 <= 5 <= Z.of_nat k /\
    (@None error = None -> 5 = len (B "hello") /\ k = List.length (B "hello")) /\
    (forall e, None = Some e -> conn (self (sampleState [])) <> None ->
               isTemporary e = false) /\
    incomingOf (afterExchange (sampleState []) (B "hello") []) =
      incomingOf (sampleState []) /\
    warnings (afterExchange (sampleState []) (B "hello") []) =
      warnings (sampleState []).
Proof.
  apply (sendAll_writes_prefix (B "hello") (sampleState [])
           (afterExchange (sampleState []) (B "hello") []) 5 None).
  vm_compute. reflexivity.
Defined.

(** ** One exchange, from any state *)

Lemma splitLine_Some p : forall line rest,
  splitLine p = Some (line, rest) -> p = line ++ rest /\ isLine line = true.
Proof.
  induction p as [|c p IH]; intros line rest H; [discriminate|].
  cbn [splitLine] in H. destruct (Ascii.eqb c LF) eqn:Ec.
  - injection H as <- <-. split; [reflexivity|]. cbn [isLine]. exact Ec.
  - destruct (splitLine p) as [[l r]|] eqn:Ep; [|discriminate].
    injection H as <- <-. destruct (IH l r eq_refl) as [-> Hl].
    split; [reflexivity|]. cbn [isLine]. destruct l as [|c' l']; [discriminate|].
    rewrite Ec. exact Hl.
Qed.

Lemma splitLine_None p :
  forallb (fun c => negb (Ascii.eqb c LF)) p = true -> splitLine p = None.
Proof.
  induction p as [|c p IH]; [reflexivity|]. cbn [forallb splitLine]. intros H.
  apply andb_true_iff in H as [Hc H]. apply negb_true_iff in Hc.
  rewrite Hc, IH by exact H. reflexivity.
Qed.

(** What [sendCommand] has done when it returns. *)
Lemma sendCommand_returns command s resp err s' :
  sendCommand command s = Returns (resp, err) s' ->
  match err with
  | Some _ => resp = []
  | None =>
      isLine resp = true /\ wireOf s' = wireOf s ++ command /\
      incomingOf s = resp ++ incomingOf s' /\ warnings s' = warnings s
  end.
Proof.
  unfold sendCommand. unfold bind at 1.
  pose proof (sendAll_spec command s) as H.
  destruct (sendAll command s) as [[n e] s1|msg s1|s1]; [|discriminate ..].
  destruct e as [e|].
  - unfold ret. intros E. injection E as <- <- <-. reflexivity.
  - destruct (conn (self s)) as [c|] eqn:Hc;
      [|destruct H as (_ & H & _); discriminate].
    destruct H as (c' & done & part & -> & (Hin & _) & Hw & _ & -> & ->).
    unfold bind, ReadString. cbn [setConn self conn].
    destruct (splitLine (net.incoming c')) as [[line rest]|] eqn:Es.
    + intros E. injection E as <- <- <-.
      destruct (splitLine_Some _ _ _ Es) as [Hp Hl].
      unfold wireOf, incomingOf. rewrite Hc. cbn [setConn self conn warnings].
      cbn [net.setIncoming net.wire net.incoming].
      rewrite Hw, app_nil_r, <- Hin, Hp. auto.
    + destruct (net.readEnd c'); [|discriminate].
      intros E. injection E as <- <- <-. reflexivity.
Qed.

(** When [sendCommand] returns a response without an error, the whole
    command is on the wire and the response is exactly one line, the first
    of the bytes that were waiting, and nothing after it was consumed; with
    an error it returns the empty string, never a part of a line. *)
Theorem sendCommand_one_line (command resp : bytes) (err : option error)
    (s s' : State) :
  sendCommand command s = Returns (resp, err) s' ->
  (err <> None -> resp = []) /\
  (err = None ->
   isLine resp = true /\ wireOf s' = wireOf s ++ command /\
   incomingOf s = resp ++ incomingOf s').
Proof.
  intros E. pose proof (sendCommand_returns _ _ _ _ _ E) as H.
  destruct err as [e|].
  - split; [auto|discriminate].
  - split; [congruence|]. intros _. tauto.
Qed.

Lemma sendCommand_one_line_witness :
  isLine (B "NOT_FOUND" ++ CRLF) = true /\
  wireOf (afterExchange (sampleState (B "NOT_FOUND" ++ CRLF ++ B "more"))
            (B "delete 3" ++ CRLF) (B "more")) =
    wireOf (sampleState (B "NOT_FOUND" ++ CRLF ++ B "more")) ++ B "delete 3" ++ CRLF /\
  incomingOf (sampleState (B "NOT_FOUND" ++ CRLF ++ B "more")) =
    (B "NOT_FOUND" ++ CRLF) ++
    incomingOf (afterExchange (sampleState (B "NOT_FOUND" ++ CRLF ++ B "more"))
                  (B "delete 3" ++ CRLF) (B "more")).
Proof.
  refine (proj2 (sendCommand_one_line (B "delete 3" ++ CRLF) (B "NOT_FOUND" ++ CRLF)
                   None (sampleState (B "NOT_FOUND" ++ CRLF ++ B "more"))
                   (afterExchange (sampleState (B "NOT_FOUND" ++ CRLF ++ B "more"))
                      (B "delete 3" ++ CRLF) (B "more")) _) eq_refl).
  vm_compute. reflexivity.
Defined.

(** ** Success is sound *)

Lemma sendCommandAndCheck_nil command expected s s' :
  sendCommandAndCheck command expected s = Returns None s' ->
  wireOf s' = wireOf s ++ command /\ incomingOf s = expected ++ incomingOf s'.
Proof.
  unfold sendCommandAndCheck, bind.
  destruct (sendCommand command s) as [[resp err] s1|msg s1|s1] eqn:E;
    [|discriminate ..].
  pose proof (sendCommand_returns _ _ _ _ _ E) as Hr.
  destruct err as [e|]; [discriminate|].
  destruct (beqb resp expected) eqn:Eb; [|discriminate].
  apply beqb_eq in Eb. subst resp. unfold ret. intros E'. injection E' as <-.
  tauto.
Qed.

(** From any state: when [Use], [Delete], [Bury], [Release] or [KickJob]
    returns nil, its whole command is on the wire and the server's next line
    was exactly its success reply, which is all it consumed. *)
Theorem exact_reply_success_sound (T : bytes) (id : Z) (s s' : State) :
  (Use T s = Returns None s' ->
   wireOf s' = wireOf s ++ useCommand T /\
   incomingOf s = (B "USING " ++ T ++ CRLF) ++ incomingOf s') /\
  (Delete id s = Returns None s' ->
   wireOf s' = wireOf s ++ deleteCommand id /\
   incomingOf s = (B "DELETED" ++ CRLF) ++ incomingOf s') /\
  (Bury id s = Returns None s' ->
   wireOf s' = wireOf s ++ buryCommand id /\
   incomingOf s = (B "BURIED" ++ CRLF) ++ incomingOf s') /\
  (Release id s = Returns None s' ->
   wireOf s' = wireOf s ++ releaseCommand id /\
   incomingOf s = (B "RELEASED" ++ CRLF) ++ incomingOf s') /\
  (KickJob id s = Returns None s' ->
   wireOf s' = wireOf s ++ kickJobCommand id /\
   incomingOf s = (B "KICKED" ++ CRLF) ++ incomingOf s').
Proof.
  split; [|split; [|split; [|split]]]; intros H;
    unfold Use, Delete, Bury, Release, KickJob in H; rewrite ?Use_expected in H;
    apply sendCommandAndCheck_nil in H; exact H.
Qed.

Lemma exact_reply_success_sound_witness :
  wireOf (afterExchange (sampleState (B "DELETED" ++ CRLF)) (deleteCommand 7) []) =
    wireOf (sampleState (B "DELETED" ++ CRLF)) ++ deleteCommand 7 /\
  incomingOf (sampleState (B "DELETED" ++ CRLF)) =
    (B "DELETED" ++ CRLF) ++
    incomingOf (afterExchange (sampleState (B "DELETED" ++ CRLF)) (deleteCommand 7) []).
Proof.
  refine (proj1 (proj2 (exact_reply_success_sound [] 7
                   (sampleState (B "DELETED" ++ CRLF))
                   (afterExchange (sampleState (B "DELETED" ++ CRLF))
                      (deleteCommand 7) []))) _).
  vm_compute. reflexivity.
Defined.

(** ** Transport failures *)

Lemma sendAll_reads_nothing data s n err s1 :
  sendAll data s = Returns (n, err) s1 ->
  incomingOf s1 = incomingOf s /\ warnings s1 = warnings s.
Proof.
  intros E. pose proof (sendAll_spec data s) as H. rewrite E in H.
  unfold incomingOf. destruct (conn (self s)) as [c|] eqn:Hc.
  - destruct H as (c' & done & part & -> & (Hin & _) & _).
    cbn [setConn self conn warnings]. auto.
  - destruct H as (_ & _ & ->). rewrite Hc. auto.
Qed.

Lemma sendCommand_write_error command s n e s1 :
  sendAll command s = Returns (n, Some e) s1 ->
  sendCommand command s = Returns ([], Some e) s1.
Proof.
  intros E. unfold sendCommand, bind. rewrite E. reflexivity.
Qed.

(** When the write of the command fails, every operation returns the error
    of the write unchanged and does not read: the server's bytes stay where
    they were, and nothing is logged. *)
Theorem write_error_is_returned (op : operation) (s s1 : State) (n : Z)
    (e : error) :
  sendAll (commandOf op) s = Returns (n, Some e) s1 ->
  run op s = Returns (Some e) s1 /\
  incomingOf s1 = incomingOf s /\ warnings s1 = warnings s.
Proof.
  intros E. split.
  - pose proof (sendCommand_write_error _ _ _ _ _ E) as H.
    destruct op; cbn [run commandOf] in *;
      unfold Watch, Use, Put, Delete, Reserve, Bury, Release, KickJob, Kick,
        sendCommandAndCheck, bind;
      rewrite H; reflexivity.
  - apply (sendAll_reads_nothing _ _ _ _ _ E).
Qed.

Lemma write_error_is_returned_witness :
  run (OpDelete 7)
    {| self := {| conn := Some {| net.script := [(3%nat, Some (NetError false "reset"))];
                                  net.wire := []; net.incoming := B "DELETED" ++ CRLF;
                                  net.readEnd := Some EOF; net.closeErr := None;
                                  net.closed := false |};
                  addr := [] |};
       warnings := [] |} =
  Returns (Some (NetError false "reset"))
    {| self := {| conn := Some {| net.script := [];
                                  net.wire := B "del"; net.incoming := B "DELETED" ++ CRLF;
                                  net.readEnd := Some EOF; net.closeErr := None;
                                  net.closed := false |};
                  addr := [] |};
       warnings := [] |}.
Proof.
  refine (proj1 (write_error_is_returned (OpDelete 7) _ _ 0 (NetError false "reset") _)).
  vm_compute. reflexivity.
Defined.

(** When the stream ends, or the read fails, before a whole response line
    has arrived, every operation returns the error of the read as it is,
    not an error of the classifier, after its command went out; the bytes
    of the unfinished line are dropped. *)
Theorem read_error_is_returned (op : operation) (s : State) (c : net.Conn)
    (e : error) :
  conn (self s) = Some c -> net.closed c = false ->
  carries (net.script c) (List.length (commandOf op)) = true ->
  forallb (fun b => negb (Ascii.eqb b LF)) (net.incoming c) = true ->
  net.readEnd c = Some e ->
  run op s = Returns (Some e) (afterExchange s (commandOf op) []) /\
  wireOf (afterExchange s (commandOf op) []) = wireOf s ++ commandOf op.
Proof.
  intros Hc Hcl Hcar Hno He.
  assert (H : sendCommand (commandOf op) s =
              Returns ([], Some e) (afterExchange s (commandOf op) [])).
  { unfold sendCommand, afterExchange. rewrite Hc. unfold bind at 1.
    rewrite (sendAll_carries s c _ Hc Hcl Hcar). cbv iota beta.
    unfold bind, ReadString. cbn [self conn setConn net.incoming net.readEnd].
    rewrite (splitLine_None _ Hno), He. reflexivity. }
  split.
  - destruct op; cbn [run commandOf] in *;
      unfold Watch, Use, Put, Delete, Reserve, Bury, Release, KickJob, Kick,
        sendCommandAndCheck, bind;
      rewrite H; reflexivity.
  - unfold afterExchange, wireOf. rewrite Hc. reflexivity.
Qed.

Lemma read_error_is_returned_witness :
  run OpReserve (sampleState (B "RESER")) =
  Returns (Some EOF) (afterExchange (sampleState (B "RESER")) reserveCommand []).
Proof.
  refine (proj1 (read_error_is_returned OpReserve (sampleState (B "RESER"))
                   (sampleConn (B "RESER")) EOF _ _ _ _ _)); reflexivity.
Defined.

(** ** No panic outside the payload read *)

Lemma sendCommand_no_panic command s msg s' :
  sendCommand command s <> Panics msg s'.
Proof.
  unfold sendCommand. unfold bind at 1.
  pose proof (sendAll_spec command s) as H.
  destruct (sendAll command s) as [[n e] s1|m s1|s1]; [|contradiction|discriminate].
  destruct e as [e|]; [discriminate|].
  destruct (conn (self s)) as [c|] eqn:Hc;
    [|destruct H as (_ & H & _); discriminate].
  destruct H as (c' & done & part & -> & _).
  unfold bind, ReadString. cbn [setConn self conn].
  destruct (splitLine (net.incoming c')) as [[line rest]|]; [discriminate|].
  destruct (net.readEnd c'); discriminate.
Qed.

(** In no state, with or without a connection, whatever the transport does
    and whatever bytes the server sends, does [Watch], [Use], [Put],
    [Delete], [Bury], [Release], [KickJob] or [Kick] panic: an unknown or
    malformed reply always comes back as an error value. *)
Theorem operations_never_panic (op : operation) (s s' : State) (msg : string) :
  op <> OpReserve -> run op s <> Panics msg s'.
Proof.
  intros Hop.
  destruct op; try congruence; cbn [run];
    unfold Watch, Use, Put, Delete, Bury, Release, KickJob, Kick,
      sendCommandAndCheck, bind;
    match goal with
    | |- context [sendCommand ?cmd s] =>
        pose proof (sendCommand_no_panic cmd s) as Hn;
        destruct (sendCommand cmd s) as [[resp err] s1|m s1|s1];
        [|intros E; injection E as -> ->; exact (Hn _ _ eq_refl)|discriminate]
    end;
    destruct err as [e|]; try discriminate.
  - destruct (fmt.Sscanf resp (B "WATCHING %d" ++ CRLF) [fmt.IntPtr]) as [v [e|]];
      discriminate.
  - destruct (negb (beqb resp _)); discriminate.
  - destruct (HasPrefix resp (B "IN")).
    + destruct (fmt.Sscanf resp (B "INSERTED %d" ++ CRLF) [fmt.Uint64Ptr]);
        discriminate.
    + destruct (HasPrefix resp (B "BU")); [|discriminate].
      destruct (fmt.Sscanf resp (B "BURIED %d" ++ CRLF) [fmt.Uint64Ptr]);
        discriminate.
  - destruct (negb (beqb resp _)); discriminate.
  - destruct (negb (beqb resp _)); discriminate.
  - destruct (negb (beqb resp _)); discriminate.
  - destruct (negb (beqb resp _)); discriminate.
  - destruct (HasPrefix resp (B "KICKED")); [|discriminate].
    destruct (fmt.Sscanf resp (B "KICKED %d" ++ CRLF) [fmt.Uint64Ptr]);
      discriminate.
Qed.

Lemma operations_never_panic_witness :
  run (OpPut (B "x")) (sampleState (B "??" ++ CRLF)) <>
  Panics "slice bounds out of range" (sampleState []).
Proof.
  apply (operations_never_panic (OpPut (B "x"))). discriminate.
Defined.

(** ** A payload cut short *)

(** When the server announces [len] bytes, a buffer of [len + 2] bytes can
    be allocated, and the stream is closed before [len + 2] bytes have
    arrived, [Reserve()] returns the job, with the ID of the header and no
    data, together with the error of the read: [io.EOF] when nothing
    followed the header, [io.ErrUnexpectedEOF] otherwise; the bytes that
    did arrive are consumed. *)
Theorem Reserve_truncated_payload (id dataLen : Z) (stream : bytes) (s : State)
    (c : net.Conn) :
  0 <= id <= max_uint64 -> 0 <= dataLen -> dataLen + 2 <= maxAlloc ->
  len stream < dataLen + 2 ->
  conn (self s) = Some c -> net.readEnd c = Some EOF ->
  served s reserveCommand
    (B "RESERVED " ++ utoa id ++ B " " ++ itoa dataLen ++ CRLF) stream ->
  Reserve s =
  Returns (Some {| ID := id; Data := [] |},
           Some (match stream with [] => EOF | _ :: _ => ErrUnexpectedEOF end))
    (afterExchange s reserveCommand []).
Proof.
  intros Hid H0 Hmax Hlen Hc He Hs.
  unfold maxAlloc in Hmax.
  rewrite (Reserve_header s id dataLen stream)
    by (auto; unfold min_int, max_int in *; lia).
  unfold bind, readData.
  rewrite wrap_int_small by (unfold min_int, max_int in *; lia).
  unfold maxAlloc. cmp. cbn [orb].
  unfold bind, ReadFull, afterExchange. rewrite Hc.
  cbn [setConn self conn net.incoming net.readEnd]. rewrite He. cmp.
  cbv iota beta.
  destruct stream as [|b stream'].
  - reflexivity.
  - replace (0 <? len (b :: stream')) with true
      by (symmetry; apply Z.ltb_lt; unfold len; simpl; lia).
    reflexivity.
Qed.

Lemma Reserve_truncated_payload_witness :
  Reserve (sampleState (B "RESERVED 9 10" ++ CRLF ++ B "abc")) =
  Returns (Some {| ID := 9; Data := [] |}, Some ErrUnexpectedEOF)
    (afterExchange (sampleState (B "RESERVED 9 10" ++ CRLF ++ B "abc"))
       reserveCommand []).
Proof.
  apply (Reserve_truncated_payload 9 10 (B "abc")
           (sampleState (B "RESERVED 9 10" ++ CRLF ++ B "abc"))
           (sampleConn (B "RESERVED 9 10" ++ CRLF ++ B "abc"))).
  - unfold max_uint64. lia.
  - lia.
  - unfold maxAlloc. lia.
  - vm_compute. reflexivity.
  - reflexivity.
  - reflexivity.
  - served_sample.
Defined.

(** ** A payload too large to allocate *)

(** Above the allocation limit the buffer is refused before any read. *)
Lemma readData_oversized (dataLen : Z) (s : State) :
  maxAlloc < dataLen + 2 -> dataLen <= max_int ->
  readData dataLen s = Panics makesliceRange s.
Proof.
  intros Hbig Hint. unfold readData.
  assert (H : (wrap_int (dataLen + 2) <? 0) || (maxAlloc <? wrap_int (dataLen + 2)) = true).
  { destruct (Z_le_dec (dataLen + 2) max_int) as [Hle|Hgt].
    - rewrite wrap_int_small by (unfold min_int, max_int, maxAlloc in *; lia).
      apply orb_true_iff. right. apply Z.ltb_lt. exact Hbig.
    - apply orb_true_iff. left. apply Z.ltb_lt.
      unfold wrap_int, max_int in *.
      replace ((dataLen + 2 + 2 ^ 63) mod 2 ^ 64) with (dataLen + 2 + 2 ^ 63 - 2 ^ 64).
      + lia.
      + apply Z.mod_unique with (q := 1); lia. }
  rewrite H. reflexivity.
Qed.

(** When the header declares a length [len] that fits an [int] with
    [len + 2] above the allocation limit, [Reserve()] panics on the
    allocation of the buffer, whatever the stream holds: nothing after the
    header is read. *)
Theorem Reserve_oversized_length (id dataLen : Z) (stream : bytes) (s : State) :
  0 <= id <= max_uint64 -> maxAlloc < dataLen + 2 -> dataLen <= max_int ->
  served s reserveCommand
    (B "RESERVED " ++ utoa id ++ B " " ++ itoa dataLen ++ CRLF) stream ->
  Reserve s = Panics makesliceRange (afterExchange s reserveCommand stream) /\
  incomingOf (afterExchange s reserveCommand stream) = stream /\
  makesliceRange = "makeslice: len out of range"%string.
Proof.
  intros Hid Hbig Hint Hs. split; [|split; [|reflexivity]].
  - rewrite (Reserve_header s id dataLen stream Hid)
      by (auto; unfold min_int, max_int, maxAlloc in *; lia).
    unfold bind. rewrite readData_oversized by assumption. reflexivity.
  - eapply incomingOf_afterExchange. exact Hs.
Qed.

Lemma Reserve_oversized_length_witness :
  Reserve (sampleState (B "RESERVED 9 4611686018427387904" ++ CRLF ++ B "abc")) =
  Panics "makeslice: len out of range"
    (afterExchange (sampleState (B "RESERVED 9 4611686018427387904" ++ CRLF ++ B "abc"))
       reserveCommand (B "abc")).
Proof.
  refine (proj1 (Reserve_oversized_length 9 4611686018427387904 (B "abc")
           (sampleState (B "RESERVED 9 4611686018427387904" ++ CRLF ++ B "abc")) _ _ _ _)).
  - unfold max_uint64. lia.
  - unfold maxAlloc. lia.
  - unfold max_int. lia.
  - served_sample.
Defined.

Lemma sendAll_retries_witness :
  exists s', sendAll (B "reserve" ++ CRLF) (sampleState []) =
               Returns (len (B "reserve" ++ CRLF), None) s' /\
             wireOf s' = wireOf (sampleState []) ++ B "reserve" ++ CRLF.
Proof.
  apply (sendAll_retries (B "reserve" ++ CRLF) (sampleState []) (sampleConn []));
    reflexivity.
Defined.

(** ** Two operations in a row *)

Lemma Put_on_inserted P id s rest :
  0 <= id <= max_uint64 ->
  served s (putCommand P) (B "INSERTED " ++ utoa id ++ CRLF) rest ->
  Put P s = Returns (id, None) (afterExchange s (putCommand P) rest).
Proof.
  intros Hid Hs. unfold Put, bind.
  rewrite (sendCommand_served _ _ _ _ Hs)
    by (apply isLine_reply1; [reflexivity|lia]).
  change (HasPrefix (B "INSERTED " ++ utoa id ++ CRLF) (B "IN")) with true.
  cbv iota.
  change (B "INSERTED " ++ utoa id ++ CRLF)
    with (B "INSERTED" ++ B " " ++ utoa id ++ CRLF).
  change (B "INSERTED %d" ++ CRLF) with (B "INSERTED" ++ B " %d" ++ CRLF).
  rewrite Sscanf_word_uint by (auto; reflexivity). reflexivity.
Qed.

(** [Use(T)] followed by [Put(P)] on one connection: when the server
    answers [USING T\r\n] and then [INSERTED <id>\r\n], both calls succeed,
    each consuming its own line, and the wire carries the two commands one
    after the other, with nothing between or after them. *)
Theorem Use_then_Put (T P rest : bytes) (id : Z) (s : State) (c : net.Conn) :
  0 <= id <= max_uint64 ->
  forallb (fun b => negb (Ascii.eqb b LF)) T = true ->
  conn (self s) = Some c -> net.closed c = false ->
  carries (net.script c) (List.length (useCommand T)) = true ->
  carries (remaining (net.script c) (List.length (useCommand T)))
    (List.length (putCommand P)) = true ->
  net.incoming c =
    (B "USING " ++ T ++ CRLF) ++ (B "INSERTED " ++ utoa id ++ CRLF) ++ rest ->
  exists s2,
    (e <- Use T ;; r <- Put P ;; ret (e, r)) s = Returns (None, (id, None)) s2 /\
    wireOf s2 = wireOf s ++ useCommand T ++ putCommand P /\
    incomingOf s2 = rest.
Proof.
  intros Hid HT Hc Hcl Hcar1 Hcar2 Hin.
  set (mid := (B "INSERTED " ++ utoa id ++ CRLF) ++ rest) in *.
  assert (Hs1 : served s (useCommand T) (B "USING " ++ T ++ CRLF) mid).
  { exists c. auto. }
  assert (Hs2 : served (afterExchange s (useCommand T) mid) (putCommand P)
                  (B "INSERTED " ++ utoa id ++ CRLF) rest).
  { unfold afterExchange. rewrite Hc. eexists. split; [reflexivity|].
    split; [reflexivity|]. split; [exact Hcar2|reflexivity]. }
  exists (afterExchange (afterExchange s (useCommand T) mid) (putCommand P) rest).
  split; [|split].
  - unfold bind at 1. unfold Use. rewrite Use_expected.
    rewrite (sendCommandAndCheck_served _ _ _ _ _ Hs1)
      by (apply isLine_app; [reflexivity|];
          apply isLine_app; [exact HT|reflexivity]).
    rewrite beqb_refl. unfold bind.
    rewrite (Put_on_inserted P id _ rest Hid Hs2). reflexivity.
  - unfold afterExchange, wireOf. rewrite Hc. cbn [setConn self conn net.wire].
    rewrite <- app_assoc. reflexivity.
  - unfold afterExchange, incomingOf. rewrite Hc. reflexivity.
Qed.

Lemma Use_then_Put_witness :
  exists s2,
    (e <- Use (B "jobs") ;; r <- Put (B "hello") ;; ret (e, r))
      {| self := {| conn := Some {| net.script := [(4%nat, None); (4096%nat, None);
                                                   (4096%nat, None)];
                                    net.wire := [];
                                    net.incoming :=
                                      (B "USING " ++ B "jobs" ++ CRLF) ++
                                      (B "INSERTED " ++ utoa 42 ++ CRLF) ++ [];
                                    net.readEnd := None; net.closeErr := None;
                                    net.closed := false |};
                    addr := [] |};
         warnings := [] |} = Returns (None, (42, None)) s2 /\
    wireOf s2 = [] ++ useCommand (B "jobs") ++ putCommand (B "hello") /\
    incomingOf s2 = [].
Proof.
  apply (Use_then_Put (B "jobs") (B "hello") [] 42
           {| self := {| conn := Some {| net.script := [(4%nat, None); (4096%nat, None);
                                                        (4096%nat, None)];
                                         net.wire := [];
                                         net.incoming :=
                                           (B "USING " ++ B "jobs" ++ CRLF) ++
                                           (B "INSERTED " ++ utoa 42 ++ CRLF) ++ [];
                                         net.readEnd := None; net.closeErr := None;
                                         net.closed := false |};
                         addr := [] |};
              warnings := [] |}
           {| net.script := [(4%nat, None); (4096%nat, None); (4096%nat, None)];
              net.wire := [];
              net.incoming :=
                (B "USING " ++ B "jobs" ++ CRLF) ++
                (B "INSERTED " ++ utoa 42 ++ CRLF) ++ [];
              net.readEnd := None; net.closeErr := None;
              net.closed := false |}).
  - unfold max_uint64. lia.
  - reflexivity.
  - reflexivity.
  - reflexivity.
  - reflexivity.
  - reflexivity.
  - reflexivity.
Defined.

(** ** The commands as lines *)

Lemma decimal_inj a b :
  0 <= a -> 0 <= b -> strconv.decimal a = strconv.decimal b -> a = b.
Proof.
  intros Ha Hb E.
  destruct (decimal_spec a Ha) as (_ & _ & Hva).
  destruct (decimal_spec b Hb) as (_ & _ & Hvb).
  rewrite E in Hva. congruence.
Qed.

Lemma utoa_frame_inj (head tail : bytes) a b :
  0 <= a -> 0 <= b ->
  head ++ utoa a ++ tail = head ++ utoa b ++ tail -> a = b.
Proof.
  intros Ha Hb E. apply app_inv_head in E. apply app_inv_tail in E.
  apply decimal_inj; assumption.
Qed.

(** The commands that name a job or a bound name it without ambiguity:
    two ids give the same command only when they are equal. *)
Theorem commands_identify_job (id1 id2 : Z) :
  0 <= id1 -> 0 <= id2 ->
  (deleteCommand id1 = deleteCommand id2 -> id1 = id2) /\
  (buryCommand id1 = buryCommand id2 -> id1 = id2) /\
  (releaseCommand id1 = releaseCommand id2 -> id1 = id2) /\
  (kickJobCommand id1 = kickJobCommand id2 -> id1 = id2) /\
  (kickCommand id1 = kickCommand id2 -> id1 = id2).
Proof.
  intros H1 H2.
  rewrite !buryCommand_eq, !releaseCommand_eq, !kickJobCommand_eq, !kickCommand_eq
    by assumption.
  unfold deleteCommand.
  split; [|split; [|split; [|split]]]; intros E;
    eapply utoa_frame_inj; eauto.
Qed.

Lemma commands_identify_job_witness :
  buryCommand 12 = buryCommand (6 + 6) /\ 12 = 6 + 6.
Proof.
  split; [reflexivity|].
  apply (proj1 (proj2 (commands_identify_job 12 (6 + 6) ltac:(lia) ltac:(lia)))).
  reflexivity.
Defined.

Lemma isLine_app_eq body tail :
  isLine tail = true ->
  isLine (body ++ tail) = forallb (fun b => negb (Ascii.eqb b LF)) body.
Proof.
  intros Ht. induction body as [|c body IH]; [exact Ht|].
  cbn [app isLine forallb]. destruct (body ++ tail) eqn:E.
  - destruct body; [|discriminate]. simpl in E. subst. discriminate.
  - rewrite IH. reflexivity.
Qed.

(** Every command built from a number is one line, ended by the only line
    feed in it.  The commands of [Use] and [Watch] are one line exactly
    when the tube name has no line feed: the name goes out unchecked, and
    a name with a line feed in it sends more than one line. *)
Theorem commands_are_lines (id : Z) (T : bytes) :
  0 <= id ->
  isLine (deleteCommand id) = true /\
  isLine (buryCommand id) = true /\
  isLine (releaseCommand id) = true /\
  isLine (kickJobCommand id) = true /\
  isLine (kickCommand id) = true /\
  isLine reserveCommand = true /\
  isLine quitCommand = true /\
  isLine (useCommand T) = forallb (fun b => negb (Ascii.eqb b LF)) T /\
  isLine (watchCommand T) = forallb (fun b => negb (Ascii.eqb b LF)) T.
Proof.
  intros Hid.
  rewrite buryCommand_eq, releaseCommand_eq, kickJobCommand_eq, kickCommand_eq
    by assumption.
  unfold deleteCommand, useCommand, watchCommand.
  repeat (split; [first [ reflexivity
                        | apply isLine_reply1; [reflexivity|exact Hid]
                        | apply isLine_app; [reflexivity|];
                          apply isLine_app; [apply decimal_noLF; exact Hid|reflexivity] ]|]).
  split; rewrite app_assoc, isLine_app_eq, forallb_app by reflexivity; reflexivity.
Qed.

Lemma commands_are_lines_witness :
  isLine (useCommand (B "a" ++ CRLF ++ B "quit")) = false.
Proof.
  destruct (commands_are_lines 0 (B "a" ++ CRLF ++ B "quit") ltac:(lia))
    as (_ & _ & _ & _ & _ & _ & _ & H & _).
  rewrite H. reflexivity.
Defined.
